(** * Verification of the utility snippets: SQLBuilder, file timestamps,
      and the multi-handler logger setup.

    The Python sources are embedded shallowly: strings are byte strings
    ([string], UTF-8), tuples and keyword-argument dictionaries are lists
    in iteration order, exceptions are an explicit error type, attribute
    mutation on [self] and on the logging registry is explicit state
    passing. *)

From Stdlib Require Import ZArith Ascii String List Lia DecimalString.
From stdpp Require Import base option list gmap strings.

Local Open Scope Z_scope.

(** ** Python exceptions and results *)

Inductive exn : Type :=
| IndexError (what : string)
| NameError (name : string)
| UnboundLocalError (name : string)
| FileNotFoundError (path : string)
| KeyError (key : string)
| ValueError (what : string).

Inductive result (A : Type) : Type :=
| Ok (a : A)
| Raise (e : exn).
Arguments Ok {A} a.
Arguments Raise {A} e.

(** An exception ends the computation; stdpp's [x ← m; k] sequences. *)
#[global] Instance result_ret : MRet result := fun A a => Ok a.
#[global] Instance result_bind : MBind result := fun A B k m =>
  match m with Ok a => k a | Raise e => Raise e end.

(** ** String helpers shared by the three modules *)

(** [sep.join(xs)] *)
Fixpoint join (sep : string) (xs : list string) : string :=
  match xs with
  | [] => ""
  | [x] => x
  | x :: rest => x +:+ sep +:+ join sep rest
  end.

(** [s.count(c)] for a one-character needle *)
Fixpoint count_char (c : ascii) (s : string) : nat :=
  match s with
  | EmptyString => 0%nat
  | String a s' => ((if Ascii.eqb a c then 1 else 0) + count_char c s')%nat
  end.

(** [s.split(' ')]: split on single spaces, keeping empty pieces *)
Fixpoint split_space (s : string) : list string :=
  match s with
  | EmptyString => [""]
  | String a s' =>
      if Ascii.eqb a " " then "" :: split_space s'
      else match split_space s' with
           | w :: ws => String a w :: ws
           | [] => [String a ""]
           end
  end.

(** [str.lower()] on the ASCII range.  No character outside ASCII
    lower-cases to one of the letters of ['w_and'] or ['w_or'], so the
    comparisons made by [where_clause] are decided exactly. *)
Definition lower_ascii (a : ascii) : ascii :=
  let n := nat_of_ascii a in
  if ((65 <=? n) && (n <=? 90))%nat then ascii_of_nat (n + 32) else a.

Fixpoint lower (s : string) : string :=
  match s with
  | EmptyString => EmptyString
  | String a s' => String (lower_ascii a) (lower s')
  end.

(** [tuple[:-1]] *)
Definition all_but_last {A} (xs : list A) : list A := removelast xs.

(** [tuple[-1]], which raises IndexError on the empty tuple *)
Definition last_item {A} (xs : list A) : result A :=
  match last xs with
  | Some x => Ok x
  | None => Raise (IndexError "tuple index out of range")
  end.

(** ** src/SQLBuilder.py *)

Module SQLBuilder.

(** Instance attributes; [None] is an attribute not yet assigned. *)
Record t : Type := mk {
  selection_args : option (list string);
  selection_text : option string;
  where_kwargs : option (list (string * string));
  where_text : option string
}.

(** [__init__]: no attribute is set. *)
Definition init : t := mk None None None None.

Definition set_selection_args (self : t) (v : list string) : t :=
  mk (Some v) (selection_text self) (where_kwargs self) (where_text self).
Definition set_selection_text (self : t) (v : string) : t :=
  mk (selection_args self) (Some v) (where_kwargs self) (where_text self).
Definition set_where_kwargs (self : t) (v : list (string * string)) : t :=
  mk (selection_args self) (selection_text self) (Some v) (where_text self).
Definition set_where_text (self : t) (v : string) : t :=
  mk (selection_args self) (selection_text self) (where_kwargs self) (Some v).

(** The loop [for arg in args[:-1]: text += f'{arg}, '] *)
Definition selection_loop (text : string) (args : list string) : string :=
  fold_left (fun txt arg => txt +:+ (arg +:+ ", ")) args text.

(** [col_selection(self, *selection_args)].  The state returned with an
    exception is the object as the raise leaves it. *)
Definition col_selection (self : t) (args : list string) : t * result unit :=
  let self := set_selection_args self args in
  let self := set_selection_text self "SELECT " in
  let text := selection_loop "SELECT " (all_but_last args) in
  let self := set_selection_text self text in
  match last_item args with
  | Raise e => (self, Raise e)
  | Ok l => (set_selection_text self (text +:+ l), Ok tt)
  end.

(** One iteration of the loop over [where_kwargs.items()] *)
Definition where_step (text : string) (kv : string * string) : string :=
  let '(key, value) := kv in
  if String.eqb (lower key) "w_and" then text +:+ ("AND " +:+ value +:+ " ")
  else if String.eqb (lower key) "w_or" then text +:+ ("OR " +:+ value +:+ " ")
  else text.

(** [where_clause(self, first_arg='', **where_kwargs)] *)
Definition where_clause (self : t) (first_arg : string)
    (kwargs : list (string * string)) : t * result unit :=
  let self := set_where_kwargs self kwargs in
  let self := set_where_text self ("WHERE " +:+ first_arg +:+ " ") in
  (set_where_text self
     (fold_left where_step kwargs ("WHERE " +:+ first_arg +:+ " ")), Ok tt).

(** The module-level object and the two calls made on it. *)
Definition sqlbuild_cols : list string :=
  ["DATETIME"; "ARG_WORKS"; "LOCATION"; "CHECK2"; "ARG_WORKS"].
Definition sqlbuild_kwargs : list (string * string) :=
  [("w_and", "fog = 'low'"); ("w_or", "LOCATION = 1")].
Definition sqlbuild : t :=
  let s := fst (col_selection init sqlbuild_cols) in
  fst (where_clause s "MATER = 'Howdy Pardner'" sqlbuild_kwargs).

End SQLBuilder.

(** ** src/file_creation_modified_date.py *)

Module FileDates.

Record Date : Type := mkDate { year : Z; month : Z; day : Z }.
Record DateTime : Type := mkDateTime {
  dt_date : Date; hour : Z; minute : Z; second : Z
}.

(** The operating system and the library functions the two lambdas name.
    They are not part of the repository and are taken as given. *)
Record Platform : Type := {
  os_path_getctime : string -> result Z;
  os_path_getmtime : string -> result Z;
  time_ctime : Z -> string;
  datetime_strptime : string -> string -> result DateTime
}.

Definition digit (d : Z) : ascii := ascii_of_nat (48 + Z.to_nat (d mod 10)).
Definition pad2 (n : Z) : string := String (digit (n / 10)) (String (digit n) "").
Definition pad4 (n : Z) : string :=
  String (digit (n / 1000)) (String (digit (n / 100)) (pad2 n)).

(** [datetime.date(dt)] and [str(date)], the ISO form YYYY-MM-DD *)
Definition datetime_date (dt : DateTime) : Date := dt_date dt.
Definition date_str (d : Date) : string :=
  pad4 (year d) +:+ "-" +:+ pad2 (month d) +:+ "-" +:+ pad2 (day d).

(** Names the interpreter can resolve inside the lambdas: the builtins
    they use and the names the module binds at its top level
    ([from datetime import datetime], [import functools], and the two
    assignments).  The module has no [import time] and no [import os]. *)
Definition builtins : list string := ["str"].
Definition module_globals : list string :=
  ["datetime"; "functools"; "CREATED_TIME"; "MODIFIED_TIME"].

Definition load_global (name : string) : result unit :=
  if bool_decide (name ∈ module_globals ++ builtins) then Ok tt
  else Raise (NameError name).

(** The body shared by both lambdas,
    [str(datetime.date(datetime.strptime(time.ctime(GETTER(a)), FMT)))],
    with its global names resolved in Python's evaluation order: the
    callee of each call first, then its argument. *)
Definition timestamp_lambda (P : Platform)
    (getter : Platform -> string -> result Z) (a : string) : result string :=
  _ ← load_global "str";
  _ ← load_global "datetime";
  _ ← load_global "datetime";
  _ ← load_global "time";
  _ ← load_global "os";
  secs ← getter P a;
  dt ← datetime_strptime P (time_ctime P secs) "%a %b %d %H:%M:%S %Y";
  Ok (date_str (datetime_date dt)).

(** [functools.partial(f)] with no bound argument calls [f]. *)
Definition partial {A B} (f : A -> B) : A -> B := fun a => f a.

Definition CREATED_TIME (P : Platform) : string -> result string :=
  partial (timestamp_lambda P os_path_getctime).

Definition MODIFIED_TIME (P : Platform) : string -> result string :=
  partial (timestamp_lambda P os_path_getmtime).

End FileDates.

(** ** src/general_logger_setup.py

    [general_logger] drives Python's [logging] package.  The part of the
    package it drives is modelled here: the registry of named loggers,
    handlers with a level and a formatter, %-style formatting against
    the attributes of a LogRecord, and the walk over the handlers that
    [Logger.debug] ... [Logger.critical] perform.  Not modelled: filters,
    [Logger.disabled], [logging.disable], exception and stack
    information on records (events are emitted by plain calls such as
    [log.info(msg)]), and failures of the operating system when the log
    file is opened or written. *)

Module Logging.

(** Numeric levels of the logging package *)
Definition NOTSET : Z := 0.
Definition DEBUG : Z := 10.
Definition INFO : Z := 20.
Definition WARNING : Z := 30.
Definition ERROR : Z := 40.
Definition CRITICAL : Z := 50.

Definition nameToLevel : list (string * Z) :=
  [("CRITICAL", CRITICAL); ("FATAL", CRITICAL); ("ERROR", ERROR);
   ("WARN", WARNING); ("WARNING", WARNING); ("INFO", INFO);
   ("DEBUG", DEBUG); ("NOTSET", NOTSET)].

Fixpoint assoc {A} (k : string) (l : list (string * A)) : option A :=
  match l with
  | [] => None
  | (k', v) :: rest => if String.eqb k k' then Some v else assoc k rest
  end.

(** [logging._checkLevel] on a level given by name *)
Definition checkLevel (level : string) : result Z :=
  match assoc level nameToLevel with
  | Some n => Ok n
  | None => Raise (ValueError ("Unknown level: " +:+ level))
  end.

Definition str_of_Z (n : Z) : string := NilZero.string_of_int (Z.to_int n).

(** [logging.getLevelName] *)
Definition getLevelName (n : Z) : string :=
  if n =? CRITICAL then "CRITICAL" else if n =? ERROR then "ERROR"
  else if n =? WARNING then "WARNING" else if n =? INFO then "INFO"
  else if n =? DEBUG then "DEBUG" else if n =? NOTSET then "NOTSET"
  else "Level " +:+ str_of_Z n.

(** Attribute values of a record *)
Inductive PyVal : Type :=
| VStr (s : string)
| VInt (n : Z)
| VNone.

Definition py_str (v : PyVal) : string :=
  match v with VStr s => s | VInt n => str_of_Z n | VNone => "None" end.

(** A LogRecord as [Logger.makeRecord] builds it for a plain call. *)
Record LogRecord : Type := mkRecord {
  rec_name : string;
  rec_levelno : Z;
  rec_msg : string;
  rec_created : Z;
  rec_msecs : Z;
  rec_pathname : string;
  rec_lineno : Z;
  rec_funcName : string;
  rec_processName : string;
  rec_process : Z;
  rec_threadName : string;
  rec_thread : Z
}.

(** What the caller's frame and the clock contribute to a record *)
Record CallSite : Type := mkCallSite {
  cs_created : Z;
  cs_msecs : Z;
  cs_pathname : string;
  cs_lineno : Z;
  cs_funcName : string;
  cs_processName : string;
  cs_process : Z;
  cs_threadName : string;
  cs_thread : Z
}.

(** [record.__dict__[key]] once a formatter has set [message] and
    [asctime] (each formatter sets both before it reads them).  The
    three float-valued attributes ([created], [msecs],
    [relativeCreated]) and the two path-derived ones ([filename],
    [module]) are left out: no format of this module names them.  There
    is no attribute called [names]. *)
Definition record_dict (asctime : string) (r : LogRecord) (key : string)
    : option PyVal :=
  assoc key
    [("name", VStr (rec_name r)); ("msg", VStr (rec_msg r)); ("args", VNone);
     ("levelname", VStr (getLevelName (rec_levelno r)));
     ("levelno", VInt (rec_levelno r));
     ("pathname", VStr (rec_pathname r)); ("lineno", VInt (rec_lineno r));
     ("funcName", VStr (rec_funcName r));
     ("exc_info", VNone); ("exc_text", VNone); ("stack_info", VNone);
     ("thread", VInt (rec_thread r)); ("threadName", VStr (rec_threadName r));
     ("processName", VStr (rec_processName r));
     ("process", VInt (rec_process r));
     ("message", VStr (rec_msg r)); ("asctime", VStr asctime)].

(** [fmt % record.__dict__] for formats made of text, [%%] and
    [%(key)s] fields; a field that is not in the dictionary raises.
    The scan keeps the state of the conversion being read. *)
Inductive pstate : Type :=
| PText
| PPercent
| PKey (k : string)
| PConv (k : string).

Fixpoint percent_format (fmt : string) (st : pstate)
    (d : string -> option PyVal) : result string :=
  match fmt with
  | EmptyString =>
      match st with
      | PText => Ok ""
      | _ => Raise (ValueError "incomplete format")
      end
  | String c rest =>
      match st with
      | PText =>
          if Ascii.eqb c "%" then percent_format rest PPercent d
          else s ← percent_format rest PText d; Ok (String c s)
      | PPercent =>
          if Ascii.eqb c "(" then percent_format rest (PKey "") d
          else if Ascii.eqb c "%" then
            s ← percent_format rest PText d; Ok (String "%" s)
          else Raise (ValueError "unsupported format character")
      | PKey k =>
          if Ascii.eqb c ")" then percent_format rest (PConv k) d
          else percent_format rest (PKey (k +:+ String c "")) d
      | PConv k =>
          if Ascii.eqb c "s" then
            match d k with
            | Some v => s ← percent_format rest PText d; Ok (py_str v +:+ s)
            | None =>
                Raise (ValueError ("Formatting field not found in record: " +:+ k))
            end
          else Raise (ValueError "unsupported format character")
      end
  end.

(** Library functions outside the repository, taken as given:
    [time.strftime] on the local time of a timestamp, the
    [default_msec_format % (s, msecs)] step of [Formatter.formatTime],
    [json.dumps(d, default=str, indent=4, sort_keys=True)], and whether
    the SMTP exchange for a message goes through. *)
Record Platform : Type := {
  strftime : string -> Z -> string;
  msec_format : string -> string -> Z -> string;
  json_dumps : list (string * PyVal) -> string;
  smtp_accepts : string -> list string -> list string -> bool
}.

Inductive Formatter : Type :=
| PlainFormatter (fmt : option string) (datefmt : option string)
| JsonFormatter (fmt_dict : list (string * string))
    (time_format : string) (msec_fmt : string)
| CustomTerminalFormat.

Definition ESC : string := String (ascii_of_nat 27) "".
Definition NL : string := String (ascii_of_nat 10) "".

(** [CustomTerminalFormat.FORMATS] *)
Definition FORMATS : list (Z * string) :=
  [(DEBUG, ESC +:+ "[1;37m%(levelname)s" +:+ ESC +:+ "[0m|%(asctime)s|" +:+ ESC
           +:+ "[32;1m%(names)s" +:+ ESC +:+ "[0m| %(message)s");
   (INFO, ESC +:+ "[34;1m%(levelname)s" +:+ ESC +:+ "[0m|%(asctime)s|" +:+ ESC
           +:+ "[32;1m%(names)s" +:+ ESC +:+ "[0m| %(message)s");
   (WARNING, ESC +:+ "[33;1m%(levelname)s" +:+ ESC +:+ "[0m|%(asctime)s|" +:+ ESC
           +:+ "[32;1m%(names)s" +:+ ESC +:+ "[0m|" +:+ ESC
           +:+ "[33;21m %(message)s" +:+ ESC +:+ "[0m");
   (ERROR, ESC +:+ "[31;1m%(levelname)s" +:+ ESC +:+ "[0m|%(asctime)s|" +:+ ESC
           +:+ "[32;1m%(names)s" +:+ ESC +:+ "[0m|" +:+ ESC
           +:+ "[31;21m %(message)s" +:+ ESC +:+ "[0m");
   (CRITICAL, ESC +:+ "[37;1;41m%(levelname)s" +:+ ESC +:+ "[0m|" +:+ ESC
           +:+ "[37;1;41m%(asctime)s" +:+ ESC +:+ "[0m|" +:+ ESC
           +:+ "[37;1;41m%(names)s" +:+ ESC +:+ "[0m|" +:+ ESC
           +:+ "[37;1;41m %(message)s" +:+ ESC +:+ "[0m")].

(** [FORMATS.get(levelno)] *)
Fixpoint FORMATS_get (levelno : Z) (l : list (Z * string)) : option string :=
  match l with
  | [] => None
  | (k, v) :: rest => if k =? levelno then Some v else FORMATS_get levelno rest
  end.

(** [Formatter.formatTime(record, datefmt)] *)
Definition formatTime (P : Platform) (time_format msec_fmt : string)
    (datefmt : option string) (r : LogRecord) : string :=
  match datefmt with
  | Some f => strftime P f (rec_created r)
  | None =>
      msec_format P msec_fmt (strftime P time_format (rec_created r)) (rec_msecs r)
  end.

(** [logging.Formatter(fmt, datefmt).format(record)]; a [fmt] of [None]
    is the default ["%(message)s"]. *)
Definition plain_format (P : Platform) (fmt : option string)
    (datefmt : option string) (r : LogRecord) : result string :=
  let asctime := formatTime P "%Y-%m-%d %H:%M:%S" "%s,%03d" datefmt r in
  percent_format (default "%(message)s" fmt) PText (record_dict asctime r).

(** [JsonFormatter.formatMessage]: the dictionary comprehension over
    [fmt_dict.items()], a KeyError on an unknown attribute *)
Fixpoint formatMessage (d : string -> option PyVal)
    (fmt_dict : list (string * string)) : result (list (string * PyVal)) :=
  match fmt_dict with
  | [] => Ok []
  | (fmt_key, fmt_val) :: rest =>
      match d fmt_val with
      | Some v => tl ← formatMessage d rest; Ok ((fmt_key, v) :: tl)
      | None => Raise (KeyError fmt_val)
      end
  end.

(** [JsonFormatter.format] for a record without exception or stack
    information ([datefmt] is [None] in [JsonFormatter.__init__]) *)
Definition json_format (P : Platform) (fmt_dict : list (string * string))
    (time_format msec_fmt : string) (r : LogRecord) : result string :=
  let asctime := formatTime P time_format msec_fmt None r in
  message_dict ← formatMessage (record_dict asctime r) fmt_dict;
  Ok (json_dumps P message_dict).

(** [CustomTerminalFormat.format] *)
Definition terminal_format (P : Platform) (r : LogRecord) : result string :=
  let log_format := FORMATS_get (rec_levelno r) FORMATS in
  plain_format P log_format (Some "%Y-%m-%d %H:%M:%S") r.

Definition format_with (P : Platform) (f : Formatter) (r : LogRecord)
    : result string :=
  match f with
  | PlainFormatter fmt datefmt => plain_format P fmt datefmt r
  | JsonFormatter fmt_dict tf mf => json_format P fmt_dict tf mf r
  | CustomTerminalFormat => terminal_format P r
  end.

Inductive HandlerKind : Type :=
| FileHandler (filename : string)
| StreamHandler
| SMTPHandler (mailhost : string) (fromaddr : list string)
    (toaddrs : list string) (subject : string)
    (credentials : option (string * string)).

(** A handler object; [h_id] is its identity. *)
Record Handler : Type := mkHandler {
  h_id : nat;
  h_kind : HandlerKind;
  h_level : Z;
  h_formatter : option Formatter
}.

Record Logger : Type := mkLogger {
  lg_level : Z;
  lg_propagate : bool;
  lg_handlers : list Handler
}.

(** The result of [logging.getLogger]: the root logger or the one
    object the registry holds for a name. *)
Inductive LoggerRef : Type :=
| RootLogger
| Named (name : string).

#[global] Instance LoggerRef_eq_dec : EqDecision LoggerRef.
Proof. solve_decision. Defined.

Record Email : Type := mkEmail {
  mail_host : string;
  mail_from : list string;
  mail_to : list string;
  mail_subject : string;
  mail_credentials : option (string * string);
  mail_body : string
}.

(** What reaches [sys.stderr]: text a stream handler wrote, or the
    report [Handler.handleError] prints for a handler whose [emit]
    raised. *)
Inductive StderrItem : Type :=
| Written (text : string)
| LoggingError (handler : nat).

(** The process state the module acts on. *)
Record World : Type := mkWorld {
  loggerDict : gmap string Logger;
  root : Logger;
  files : gmap string (list string);
  stderr : list StderrItem;
  outbox : list Email;
  next_id : nat
}.

(** A process in which [logging] has just been imported. *)
Definition fresh_world : World :=
  mkWorld ∅ (mkLogger WARNING true []) ∅ [] [] 0.

Definition set_loggerDict (w : World) (d : gmap string Logger) : World :=
  mkWorld d (root w) (files w) (stderr w) (outbox w) (next_id w).
Definition set_root (w : World) (l : Logger) : World :=
  mkWorld (loggerDict w) l (files w) (stderr w) (outbox w) (next_id w).
Definition set_files (w : World) (f : gmap string (list string)) : World :=
  mkWorld (loggerDict w) (root w) f (stderr w) (outbox w) (next_id w).
Definition set_stderr (w : World) (e : list StderrItem) : World :=
  mkWorld (loggerDict w) (root w) (files w) e (outbox w) (next_id w).
Definition set_outbox (w : World) (o : list Email) : World :=
  mkWorld (loggerDict w) (root w) (files w) (stderr w) o (next_id w).
Definition set_next_id (w : World) (n : nat) : World :=
  mkWorld (loggerDict w) (root w) (files w) (stderr w) (outbox w) n.

(** Computations on the process state that may raise. *)
Definition M (A : Type) : Type := World -> World * result A.

#[global] Instance M_ret : MRet M := fun A a w => (w, Ok a).
#[global] Instance M_bind : MBind M := fun A B k m w =>
  match m w with
  | (w', Ok a) => k a w'
  | (w', Raise e) => (w', Raise e)
  end.

Definition lift {A} (r : result A) : M A := fun w => (w, r).
Definition modify (f : World -> World) : M unit := fun w => (f w, Ok tt).

(** Reading a local variable; one that no executed statement has
    assigned raises UnboundLocalError. *)
Definition load_local {A} (name : string) (v : option A) : M A :=
  match v with
  | Some a => mret a
  | None => lift (Raise (UnboundLocalError name))
  end.

Definition lookup_logger (w : World) (l : LoggerRef) : option Logger :=
  match l with
  | RootLogger => Some (root w)
  | Named n => loggerDict w !! n
  end.

Definition update_logger (l : LoggerRef) (f : Logger -> Logger) : M unit :=
  modify (fun w =>
    match l with
    | RootLogger => set_root w (f (root w))
    | Named n => set_loggerDict w (alter f n (loggerDict w))
    end).

(** [logging.getLogger(name)]: the root logger for an empty name or the
    root's own name, else the registry's logger of that name, created
    with level NOTSET and no handler when the name is new. *)
Definition getLogger (name : string) : M LoggerRef := fun w =>
  if String.eqb name "" || String.eqb name "root" then (w, Ok RootLogger)
  else match loggerDict w !! name with
       | Some _ => (w, Ok (Named name))
       | None =>
           (set_loggerDict w (<[name := mkLogger NOTSET true []]> (loggerDict w)),
            Ok (Named name))
       end.

Definition set_level (n : Z) (lg : Logger) : Logger :=
  mkLogger n (lg_propagate lg) (lg_handlers lg).
Definition set_propagate (b : bool) (lg : Logger) : Logger :=
  mkLogger (lg_level lg) b (lg_handlers lg).

Definition Logger_setLevel (l : LoggerRef) (level : string) : M unit :=
  n ← lift (checkLevel level);
  update_logger l (set_level n).

Definition Logger_set_propagate (l : LoggerRef) (b : bool) : M unit :=
  update_logger l (set_propagate b).

(** [Logger.addHandler]: appended unless the same object is there. *)
Definition Logger_addHandler (h : Handler) (lg : Logger) : Logger :=
  if existsb (fun h' => Nat.eqb (h_id h') (h_id h)) (lg_handlers lg) then lg
  else mkLogger (lg_level lg) (lg_propagate lg) (lg_handlers lg ++ [h]).

Definition addHandler (l : LoggerRef) (h : Handler) : M unit :=
  update_logger l (Logger_addHandler h).

(** A new handler object: level NOTSET, no formatter. *)
Definition new_handler (k : HandlerKind) : M Handler := fun w =>
  (set_next_id w (S (next_id w)), Ok (mkHandler (next_id w) k NOTSET None)).

(** [open(filename, 'a')]: the file exists afterwards. *)
Definition open_append (filename : string) : M unit :=
  modify (fun w =>
    set_files w (match files w !! filename with
                 | Some _ => files w
                 | None => <[filename := []]> (files w)
                 end)).

(** [logging.FileHandler(filename, mode='a')] opens the file at once.
    The file is keyed by the name as given; the library keeps its
    absolute path. *)
Definition new_FileHandler (filename : string) : M Handler :=
  open_append filename;; new_handler (FileHandler filename).

Definition Handler_setLevel (h : Handler) (level : string) : M Handler :=
  n ← lift (checkLevel level);
  mret (mkHandler (h_id h) (h_kind h) n (h_formatter h)).

Definition setFormatter (h : Handler) (f : Formatter) : Handler :=
  mkHandler (h_id h) (h_kind h) (h_level h) (Some f).

(** [Handler.format]: the handler's formatter, or the package default *)
Definition Handler_format (P : Platform) (h : Handler) (r : LogRecord)
    : result string :=
  format_with P (default (PlainFormatter None None) (h_formatter h)) r.

Definition write_file (filename text : string) (w : World) : World :=
  set_files w (<[filename := default [] (files w !! filename) ++ [text]]> (files w)).

Definition handleError (h : Handler) (w : World) : World :=
  set_stderr w (stderr w ++ [LoggingError (h_id h)]).

(** [Handler.emit] of the three handler classes.  An exception inside
    [emit] is caught there and reported through [handleError]. *)
Definition emit (P : Platform) (h : Handler) (r : LogRecord) (w : World) : World :=
  match Handler_format P h r with
  | Raise _ => handleError h w
  | Ok msg =>
      match h_kind h with
      | StreamHandler => set_stderr w (stderr w ++ [Written (msg +:+ NL)])
      | FileHandler filename => write_file filename (msg +:+ NL) w
      | SMTPHandler mailhost fromaddr toaddrs subject credentials =>
          let w := set_outbox w (outbox w ++
                     [mkEmail mailhost fromaddr toaddrs subject credentials msg]) in
          if smtp_accepts P mailhost fromaddr toaddrs then w else handleError h w
      end
  end.

(** The dotted prefixes of a logger name, shortest first: ["a.b.c"] has
    ["a"] and ["a.b"]. *)
Fixpoint dotted_prefixes (pre : string) (s : string) : list string :=
  match s with
  | EmptyString => []
  | String c rest =>
      (if Ascii.eqb c "." && negb (String.eqb pre "") then [pre] else [])
      ++ dotted_prefixes (pre +:+ String c "") rest
  end.

(** The logger followed by its ancestors, nearest first: the loggers
    registered under a dotted prefix of its name, then the root. *)
Definition parent_chain (w : World) (l : LoggerRef) : list Logger :=
  match l with
  | RootLogger => [root w]
  | Named n =>
      option_list (loggerDict w !! n)
      ++ omap (fun p => loggerDict w !! p) (rev (dotted_prefixes "" n))
      ++ [root w]
  end.

(** The loggers [Logger.callHandlers] visits: up the chain for as long
    as [propagate] is set. *)
Fixpoint propagating (ls : list Logger) : list Logger :=
  match ls with
  | [] => []
  | l :: rest => l :: (if lg_propagate l then propagating rest else [])
  end.

(** [Logger.getEffectiveLevel] *)
Fixpoint first_level (ls : list Logger) : Z :=
  match ls with
  | [] => NOTSET
  | l :: rest => if lg_level l =? 0 then first_level rest else lg_level l
  end.

Definition getEffectiveLevel (w : World) (l : LoggerRef) : Z :=
  first_level (parent_chain w l).

Definition isEnabledFor (w : World) (l : LoggerRef) (level : Z) : bool :=
  getEffectiveLevel w l <=? level.

Definition logger_name (l : LoggerRef) : string :=
  match l with RootLogger => "root" | Named n => n end.

Definition makeRecord (l : LoggerRef) (level : Z) (msg : string)
    (cs : CallSite) : LogRecord :=
  mkRecord (logger_name l) level msg (cs_created cs) (cs_msecs cs)
    (cs_pathname cs) (cs_lineno cs) (cs_funcName cs) (cs_processName cs)
    (cs_process cs) (cs_threadName cs) (cs_thread cs).

(** One handler met by [callHandlers] *)
Definition call_handler (P : Platform) (r : LogRecord) (w : World)
    (h : Handler) : World :=
  if h_level h <=? rec_levelno r then emit P h r w else w.

(** [logging.lastResort], used when no handler at all was met *)
Definition lastResort : Handler := mkHandler 0 StreamHandler WARNING None.

(** The handlers [Logger.callHandlers] meets, in the order it meets
    them; emitting changes no logger, so they can be listed up front. *)
Definition handlers_found (w : World) (l : LoggerRef) : list Handler :=
  flat_map lg_handlers (propagating (parent_chain w l)).

(** [Logger.callHandlers] *)
Definition callHandlers (P : Platform) (l : LoggerRef) (r : LogRecord)
    (w : World) : World :=
  let found := handlers_found w l in
  let w' := fold_left (call_handler P r) found w in
  match found with
  | [] => call_handler P r w' lastResort
  | _ => w'
  end.

(** [Logger.debug], [info], [warning], [error] and [critical] with one
    message argument, by the numeric level *)
Definition log (P : Platform) (l : LoggerRef) (level : Z) (msg : string)
    (cs : CallSite) : M unit :=
  modify (fun w =>
    if isEnabledFor w l level then callHandlers P l (makeRecord l level msg cs) w
    else w).

(** Arguments of [general_logger] *)
Record Config : Type := mkConfig {
  logger_name_arg : string;
  critical_email_host_address : list string;
  critical_email_address_list : list string;
  critical_email_subject : string;
  email_credentials : option (string * string);
  mail_host_detail : string;
  log_file_type : string;
  log_file_path : string
}.

(** The defaults of the signature.  The default path is computed from
    the directory of the module and the date of its import. *)
Definition default_config (default_path : string) : Config :=
  mkConfig "general_log" [] [] "CRITICAL level triggered" None "localhost"
    "log" default_path.

Definition json_fmt_dict : list (string * string) :=
  [("level", "levelname"); ("message", "message"); ("loggerName", "name");
   ("processName", "processName"); ("processID", "process");
   ("threadName", "threadName"); ("threadID", "thread");
   ("timestamp", "asctime")].

(** The [if]/[elif] on [log_file_type]; the result is the local
    variable [log_file_handler], unassigned when neither branch runs. *)
Definition make_log_file_handler (c : Config) : M (option Handler) :=
  if String.eqb (log_file_type c) "log" then
    h ← new_FileHandler (log_file_path c +:+ "." +:+ log_file_type c);
    h ← Handler_setLevel h "INFO";
    mret (Some (setFormatter h
      (PlainFormatter (Some "%(asctime)s - %(name)s - %(levelname)s - %(message)s")
                      (Some "%Y-%m-%d %H:%M:%S"))))
  else if String.eqb (log_file_type c) "json" then
    h ← new_FileHandler (log_file_path c +:+ "." +:+ log_file_type c);
    h ← Handler_setLevel h "INFO";
    mret (Some (setFormatter h
      (JsonFormatter json_fmt_dict "%Y-%m-%dT%H:%M:%S" "%s.%03dZ")))
  else mret None.

Definition general_logger (c : Config) : M LoggerRef :=
  general_use_log ← getLogger (logger_name_arg c);
  Logger_setLevel general_use_log "DEBUG";;
  Logger_set_propagate general_use_log true;;
  log_file_handler ← make_log_file_handler c;
  terminal_handler ← new_handler StreamHandler;
  terminal_handler ← Handler_setLevel terminal_handler "DEBUG";
  let terminal_handler := setFormatter terminal_handler CustomTerminalFormat in
  critical_email_handler ← new_handler
    (SMTPHandler (mail_host_detail c) (critical_email_host_address c)
       (critical_email_address_list c) (critical_email_subject c)
       (email_credentials c));
  critical_email_handler ← Handler_setLevel critical_email_handler "CRITICAL";
  h ← load_local "log_file_handler" log_file_handler;
  addHandler general_use_log h;;
  addHandler general_use_log terminal_handler;;
  addHandler general_use_log critical_email_handler;;
  mret general_use_log.


End Logging.

(** * Vocabulary of the statements *)

(** The connector [where_clause] writes for a key, if it knows the key *)
Definition connector_of (key : string) : option string :=
  if String.eqb (lower key) "w_and" then Some "AND"
  else if String.eqb (lower key) "w_or" then Some "OR"
  else None.

(** The text one keyword argument contributes *)
Definition segment (kv : string * string) : string :=
  match connector_of (fst kv) with
  | Some c => c +:+ " " +:+ snd kv +:+ " "
  | None => ""
  end.

Definition segments (kwargs : list (string * string)) : string :=
  fold_right (fun kv acc => segment kv +:+ acc) "" kwargs.

(** The words [AND] and [OR] of a text, in order *)
Definition is_connector (w : string) : bool :=
  String.eqb w "AND" || String.eqb w "OR".

Definition connectors (s : string) : list string :=
  List.filter is_connector (split_space s).

(** Commas inside the column names themselves *)
Definition commas_in (cols : list string) : nat :=
  fold_right (fun c acc => (count_char "," c + acc)%nat) 0%nat cols.

(** Text of the loop over all columns but the last *)
Definition leading (cols : list string) : string :=
  fold_right (fun c acc => c +:+ ", " +:+ acc) "" cols.

(** The logger [logging.getLogger(name)] answers with *)
Definition ref_of_name (name : string) : Logging.LoggerRef :=
  if String.eqb name "" || String.eqb name "root" then Logging.RootLogger
  else Logging.Named name.

(** The two file-output modes that assign [log_file_handler] *)
Definition file_mode (c : Logging.Config) : Prop :=
  Logging.log_file_type c = "log" \/ Logging.log_file_type c = "json".

Definition file_name (c : Logging.Config) : string :=
  Logging.log_file_path c +:+ "." +:+ Logging.log_file_type c.

Definition file_formatter (c : Logging.Config) : Logging.Formatter :=
  if String.eqb (Logging.log_file_type c) "log" then
    Logging.PlainFormatter
      (Some "%(asctime)s - %(name)s - %(levelname)s - %(message)s")
      (Some "%Y-%m-%d %H:%M:%S")
  else Logging.JsonFormatter Logging.json_fmt_dict "%Y-%m-%dT%H:%M:%S" "%s.%03dZ".

Definition email_sink (c : Logging.Config) (id : nat) : Logging.Handler :=
  Logging.mkHandler id
    (Logging.SMTPHandler (Logging.mail_host_detail c)
       (Logging.critical_email_host_address c)
       (Logging.critical_email_address_list c)
       (Logging.critical_email_subject c) (Logging.email_credentials c))
    Logging.CRITICAL None.

(** One set of sinks: the file, console and email handlers that a call
    with configuration [c] builds, the first of them with identity [id] *)
Definition sinks (c : Logging.Config) (id : nat) : list Logging.Handler :=
  [Logging.mkHandler id (Logging.FileHandler (file_name c)) Logging.INFO
     (Some (file_formatter c));
   Logging.mkHandler (S id) Logging.StreamHandler Logging.DEBUG
     (Some Logging.CustomTerminalFormat);
   email_sink c (S (S id))].

Definition handlers_of (w : Logging.World) (l : Logging.LoggerRef)
    : list Logging.Handler :=
  match Logging.lookup_logger w l with
  | Some lg => Logging.lg_handlers lg
  | None => []
  end.

(** Identities are allocated upwards: no handler attached to a logger
    has an identity still to be handed out. *)
Definition ids_below (w : Logging.World) : Prop :=
  forall l lg, Logging.lookup_logger w l = Some lg ->
    Forall (fun h => (Logging.h_id h < Logging.next_id w)%nat) (Logging.lg_handlers lg).

(** Lines a stream handler wrote to the console *)
Definition console_lines (w : Logging.World) : list string :=
  omap (fun i => match i with Logging.Written t => Some t | _ => None end)
    (Logging.stderr w).

(** Reports of handlers whose [emit] raised *)
Definition logging_errors (w : Logging.World) : list nat :=
  omap (fun i => match i with Logging.LoggingError h => Some h | _ => None end)
    (Logging.stderr w).

Definition file_entries (w : Logging.World) (filename : string) : list string :=
  default [] (Logging.files w !! filename).

(** One event of each severity, in rising order *)
Definition five_events (P : Logging.Platform) (l : Logging.LoggerRef)
    (m1 m2 m3 m4 m5 : string) (cs : Logging.CallSite) : Logging.M unit :=
  Logging.log P l Logging.DEBUG m1 cs;;
  Logging.log P l Logging.INFO m2 cs;;
  Logging.log P l Logging.WARNING m3 cs;;
  Logging.log P l Logging.ERROR m4 cs;;
  Logging.log P l Logging.CRITICAL m5 cs.

(** A platform and a call site to run the definitions on *)
Definition sample_platform : Logging.Platform :=
  Logging.Build_Platform (fun fmt _ => fmt) (fun _ s _ => s)
    (fun d => "{" +:+ join ", " (map fst d) +:+ "}") (fun _ _ _ => true).

Definition sample_call_site : Logging.CallSite :=
  Logging.mkCallSite 1700000000 250 "app.py" 12 "main" "MainProcess" 4242
    "MainThread" 1.

(** The last character of a text *)
Fixpoint last_char (s : string) : option ascii :=
  match s with
  | EmptyString => None
  | String a EmptyString => Some a
  | String _ rest => last_char rest
  end.


(** The three sinks of a call, one by one *)
Definition file_sink (c : Logging.Config) (id : nat) : Logging.Handler :=
  Logging.mkHandler id (Logging.FileHandler (file_name c)) Logging.INFO
    (Some (file_formatter c)).

Definition console_sink (id : nat) : Logging.Handler :=
  Logging.mkHandler id Logging.StreamHandler Logging.DEBUG
    (Some Logging.CustomTerminalFormat).




(** * Properties of SQLBuilder *)

Section StringFacts.

Lemma append_nil_r (s : string) : s +:+ "" = s.
Proof. induction s as [|a s IH]; [reflexivity|]. cbv [String.append]; fold String.append. now rewrite IH. Qed.

Lemma append_cons (a : ascii) (s t : string) : String a s +:+ t = String a (s +:+ t).
Proof. reflexivity. Qed.

Lemma append_assoc (s t u : string) : (s +:+ t) +:+ u = s +:+ (t +:+ u).
Proof.
  induction s as [|a s IH]; [reflexivity|].
  rewrite !append_cons. now rewrite IH.
Qed.

Lemma count_char_app (c : ascii) (s t : string) :
  count_char c (s +:+ t) = (count_char c s + count_char c t)%nat.
Proof.
  induction s as [|a s IH]; [reflexivity|].
  rewrite append_cons. simpl. rewrite IH. lia.
Qed.

Lemma split_space_nonempty (s : string) : split_space s <> [].
Proof.
  induction s as [|a s IH]; simpl; [discriminate|].
  destruct (Ascii.eqb a " "); [discriminate|].
  destruct (split_space s); [contradiction|discriminate].
Qed.

Lemma split_space_app (s t : string) :
  split_space (s +:+ String " " t) = split_space s ++ split_space t.
Proof.
  induction s as [|a s IH]; [reflexivity|].
  rewrite append_cons. simpl. rewrite IH.
  destruct (Ascii.eqb a " "); [reflexivity|].
  pose proof (split_space_nonempty s) as Hne.
  destruct (split_space s); [contradiction|reflexivity].
Qed.

Lemma connectors_app (s t : string) :
  connectors (s +:+ String " " t) = connectors s ++ connectors t.
Proof. unfold connectors. now rewrite split_space_app, List.filter_app. Qed.

Lemma prefix_app (s t : string) : String.prefix s (s +:+ t) = true.
Proof.
  induction s as [|a s IH]; [destruct t; reflexivity|].
  rewrite append_cons. simpl. destruct (ascii_dec a a); [assumption|contradiction].
Qed.

End StringFacts.

Section SQLBuilderFacts.
Import SQLBuilder.

Lemma selection_loop_leading (cols : list string) (text : string) :
  selection_loop text cols = text +:+ leading cols.
Proof.
  unfold selection_loop. revert text.
  induction cols as [|c cols IH]; intros text; simpl.
  - now rewrite append_nil_r.
  - rewrite IH. now rewrite !append_assoc.
Qed.

Lemma leading_last_join (cols : list string) (l : string) :
  last cols = Some l -> leading (removelast cols) +:+ l = join ", " cols.
Proof.
  induction cols as [|c [|d cols] IH]; intros Hl.
  - discriminate.
  - injection Hl as <-. reflexivity.
  - change (removelast (c :: d :: cols)) with (c :: removelast (d :: cols)).
    change (join ", " (c :: d :: cols)) with (c +:+ ", " +:+ join ", " (d :: cols)).
    rewrite <- IH by exact Hl. simpl. now rewrite !append_assoc.
Qed.

Lemma last_is_Some {A} (xs : list A) : xs <> [] -> exists x, last xs = Some x.
Proof.
  induction xs as [|a [|b xs] IH]; intros Hne.
  - contradiction.
  - now exists a.
  - apply IH. discriminate.
Qed.

Lemma count_commas_join (cols : list string) :
  cols <> [] ->
  count_char "," (join ", " cols) = (length cols - 1 + commas_in cols)%nat.
Proof.
  induction cols as [|c [|d cols] IH]; intros Hne.
  - contradiction.
  - simpl. lia.
  - change (join ", " (c :: d :: cols)) with (c +:+ ", " +:+ join ", " (d :: cols)).
    rewrite !count_char_app, IH by discriminate.
    change (count_char "," ", ") with 1%nat. simpl. lia.
Qed.

Lemma commas_in_zero (cols : list string) :
  Forall (fun c => count_char "," c = 0%nat) cols -> commas_in cols = 0%nat.
Proof. induction 1 as [|c cols Hc _ IH]; simpl; [reflexivity|]. now rewrite Hc, IH. Qed.

Lemma where_step_segment (text : string) (kv : string * string) :
  where_step text kv = text +:+ segment kv.
Proof.
  destruct kv as [key value]. unfold where_step, segment, connector_of. simpl.
  destruct (String.eqb (lower key) "w_and"); [reflexivity|].
  destruct (String.eqb (lower key) "w_or"); [reflexivity|].
  now rewrite append_nil_r.
Qed.

Lemma where_loop_segments (kwargs : list (string * string)) (text : string) :
  fold_left where_step kwargs text = text +:+ segments kwargs.
Proof.
  revert text. induction kwargs as [|kv kwargs IH]; intros text; simpl.
  - now rewrite append_nil_r.
  - now rewrite IH, where_step_segment, append_assoc.
Qed.

Lemma connector_of_cases (key c : string) :
  connector_of key = Some c -> c = "AND" \/ c = "OR".
Proof.
  unfold connector_of.
  destruct (String.eqb (lower key) "w_and"); [intros [= <-]; now left|].
  destruct (String.eqb (lower key) "w_or"); [intros [= <-]; now right|discriminate].
Qed.

(** The connector words of the segments of recognised keys: the entry's
    own keyword, then whatever its predicate contains. *)
Lemma connectors_segments (kwargs : list (string * string)) :
  Forall (fun kv => is_Some (connector_of (fst kv))) kwargs ->
  connectors (segments kwargs) =
  flat_map (fun kv => default "" (connector_of (fst kv)) :: connectors (snd kv)) kwargs.
Proof.
  induction 1 as [|kv kwargs [c Hc] _ IH]; [reflexivity|].
  simpl. unfold segment. rewrite Hc. simpl.
  rewrite !append_assoc.
  change (" " +:+ snd kv +:+ " " +:+ segments kwargs)
    with (String " " (snd kv +:+ String " " (segments kwargs))).
  rewrite (connectors_app c), (connectors_app (snd kv)), IH.
  destruct (connector_of_cases _ _ Hc) as [-> | ->]; reflexivity.
Qed.

End SQLBuilderFacts.

Section SQLBuilderClaims.
Import SQLBuilder.

(** C1 (as amended).  For every non-empty sequence of column names,
    [col_selection] returns normally and leaves in [selection_text] the
    string ["SELECT " + ", ".join(columns)]: it starts with ["SELECT "]
    and holds exactly [len(columns) - 1] commas beyond those inside the
    column names, hence exactly [len(columns) - 1] when no name contains
    a comma.  On the five columns of [sqlbuild] it is
    ["SELECT DATETIME, ARG_WORKS, LOCATION, CHECK2, ARG_WORKS"]. *)
Theorem col_selection_nonempty (self : SQLBuilder.t) (cols : list string) :
  cols <> [] ->
  exists self' text,
    col_selection self cols = (self', Ok tt) /\
    selection_text self' = Some text /\
    text = "SELECT " +:+ join ", " cols /\
    String.prefix "SELECT " text = true /\
    count_char "," text = (length cols - 1 + commas_in cols)%nat /\
    (Forall (fun c => count_char "," c = 0%nat) cols ->
     count_char "," text = (length cols - 1)%nat) /\
    (cols = sqlbuild_cols ->
     text = "SELECT DATETIME, ARG_WORKS, LOCATION, CHECK2, ARG_WORKS").
Proof.
  intros Hne. destruct (last_is_Some cols Hne) as [l Hl].
  assert (Htext : selection_loop "SELECT " (all_but_last cols) +:+ l
                  = "SELECT " +:+ join ", " cols).
  { unfold all_but_last. rewrite selection_loop_leading, append_assoc.
    now rewrite (leading_last_join cols l Hl). }
  assert (Hcount : count_char "," ("SELECT " +:+ join ", " cols)
                   = (length cols - 1 + commas_in cols)%nat).
  { rewrite count_char_app, count_commas_join by exact Hne. reflexivity. }
  eexists _, ("SELECT " +:+ join ", " cols).
  split; [|split; [|split; [reflexivity|split; [apply prefix_app|split; [exact Hcount|split]]]]].
  - unfold col_selection, last_item. rewrite Hl, Htext. reflexivity.
  - reflexivity.
  - intros Hfree. rewrite Hcount, (commas_in_zero cols Hfree). lia.
  - intros ->. reflexivity.
Qed.

Lemma col_selection_nonempty_witness :
  sqlbuild_cols <> [] /\
  exists self',
    col_selection init sqlbuild_cols = (self', Ok tt) /\
    selection_text self'
    = Some "SELECT DATETIME, ARG_WORKS, LOCATION, CHECK2, ARG_WORKS" /\
    count_char "," "SELECT DATETIME, ARG_WORKS, LOCATION, CHECK2, ARG_WORKS" = 4%nat.
Proof.
  assert (Hne : sqlbuild_cols <> []) by discriminate.
  split; [exact Hne|].
  destruct (col_selection_nonempty init sqlbuild_cols Hne)
    as (self' & text & Hcall & Hsel & _ & _ & _ & _ & Hex).
  exists self'. split; [exact Hcall|]. split; [|reflexivity].
  rewrite Hsel, (Hex eq_refl). reflexivity.
Defined.

(** C1 as stated fails: a column name may itself contain the separator.
    The one-column call [col_selection("a, b")] yields ["SELECT a, b"],
    which holds one comma although [len(columns) - 1] is zero. *)
Lemma col_selection_comma_in_name :
  exists self',
    col_selection init ["a, b"] = (self', Ok tt) /\
    selection_text self' = Some "SELECT a, b" /\
    count_char "," "SELECT a, b" <> (length ["a, b"] - 1)%nat.
Proof.
  eexists. split; [reflexivity|]. split; [reflexivity|]. simpl. discriminate.
Qed.

(** C5.  With no column at all, [col_selection] raises IndexError at
    [self.selection_args[-1]]; the object is left with the bare
    ["SELECT "] and no SELECT clause is returned. *)
Theorem col_selection_empty (self : SQLBuilder.t) :
  exists self',
    col_selection self [] = (self', Raise (IndexError "tuple index out of range")) /\
    selection_args self' = Some [] /\
    selection_text self' = Some "SELECT ".
Proof. eexists. split; [reflexivity|]. split; reflexivity. Qed.

End SQLBuilderClaims.

Section WhereClauseClaims.
Import SQLBuilder.

Lemma segments_app (l1 l2 : list (string * string)) :
  segments (l1 ++ l2) = segments l1 +:+ segments l2.
Proof.
  induction l1 as [|kv l1 IH]; [reflexivity|].
  simpl. now rewrite IH, append_assoc.
Qed.

Lemma where_clause_text (self : SQLBuilder.t) (first_arg : string)
    (kwargs : list (string * string)) :
  exists self',
    where_clause self first_arg kwargs = (self', Ok tt) /\
    where_text self' = Some ("WHERE " +:+ first_arg +:+ " " +:+ segments kwargs).
Proof.
  eexists. split; [reflexivity|]. simpl.
  now rewrite where_loop_segments, !append_assoc.
Qed.

(** C2 (as amended).  For every base predicate and every ordered mapping
    whose keys all lower-case to ['w_and'] or ['w_or'], [where_clause]
    returns normally and leaves in [where_text] exactly
    ["WHERE " + base + " "] followed, in the mapping's order, by one
    segment ["AND <predicate> "] or ["OR <predicate> "] per entry, each
    ending in a space.  Its connector words are those of the base
    predicate, then for each entry the entry's keyword followed by the
    connector words of its predicate: one keyword per entry exactly when
    the base and the predicates contain no AND or OR of their own. *)
Theorem where_clause_recognised (self : SQLBuilder.t) (first_arg : string)
    (kwargs : list (string * string)) :
  Forall (fun kv => is_Some (connector_of (fst kv))) kwargs ->
  exists self' text,
    where_clause self first_arg kwargs = (self', Ok tt) /\
    where_text self' = Some text /\
    text = "WHERE " +:+ first_arg +:+ " " +:+ segments kwargs /\
    String.prefix "WHERE " text = true /\
    connectors text =
      connectors first_arg ++
      flat_map (fun kv => default "" (connector_of (fst kv)) :: connectors (snd kv))
        kwargs /\
    (connectors first_arg = [] ->
     Forall (fun kv => connectors (snd kv) = []) kwargs ->
     connectors text = map (fun kv => default "" (connector_of (fst kv))) kwargs).
Proof.
  intros Hkeys.
  destruct (where_clause_text self first_arg kwargs) as (self' & Hcall & Htext).
  assert (Hconn : connectors ("WHERE " +:+ first_arg +:+ " " +:+ segments kwargs)
    = connectors first_arg ++
      flat_map (fun kv => default "" (connector_of (fst kv)) :: connectors (snd kv))
        kwargs).
  { change ("WHERE " +:+ first_arg +:+ " " +:+ segments kwargs)
      with ("WHERE" +:+ String " " (first_arg +:+ String " " (segments kwargs))).
    rewrite (connectors_app "WHERE"), (connectors_app first_arg).
    now rewrite connectors_segments by exact Hkeys. }
  exists self', ("WHERE " +:+ first_arg +:+ " " +:+ segments kwargs).
  split; [exact Hcall|]. split; [exact Htext|]. split; [reflexivity|].
  split; [apply prefix_app|]. split; [exact Hconn|].
  intros Hbase Hvals. rewrite Hconn, Hbase. simpl.
  clear -Hvals. induction Hvals as [|kv l Hkv _ IH]; [reflexivity|].
  simpl. now rewrite Hkv, IH.
Qed.

Lemma where_clause_recognised_witness :
  exists self',
    where_clause init "a = 1" [("W_AND", "b = 2"); ("w_or", "c = 3")] = (self', Ok tt) /\
    where_text self' = Some "WHERE a = 1 AND b = 2 OR c = 3 " /\
    connectors "WHERE a = 1 AND b = 2 OR c = 3 " = ["AND"; "OR"].
Proof.
  assert (Hkeys : Forall (fun kv => is_Some (connector_of (fst kv)))
                    [("W_AND", "b = 2"); ("w_or", "c = 3")]).
  { repeat constructor; eexists; reflexivity. }
  destruct (where_clause_recognised init "a = 1" _ Hkeys)
    as (self' & text & Hcall & Htext & -> & _).
  exists self'. split; [exact Hcall|]. split; [exact Htext|reflexivity].
Defined.

(** C2 as stated fails: a predicate may itself contain a connector.
    [where_clause("a = 1", w_and="b = 2 AND c = 3")] has one mapping
    entry and writes the keyword AND twice. *)
Lemma where_clause_connector_in_predicate :
  exists self',
    where_clause init "a = 1" [("w_and", "b = 2 AND c = 3")] = (self', Ok tt) /\
    where_text self' = Some "WHERE a = 1 AND b = 2 AND c = 3 " /\
    connectors "WHERE a = 1 AND b = 2 AND c = 3 " = ["AND"; "AND"] /\
    length (connectors "WHERE a = 1 AND b = 2 AND c = 3 ")
      <> length [("w_and", "b = 2 AND c = 3")].
Proof.
  eexists. split; [reflexivity|]. split; [reflexivity|].
  split; [reflexivity|]. simpl. discriminate.
Qed.

(** C3 (as amended).  The call made on [sqlbuild] leaves in
    [where_text] the string
    ["WHERE MATER = 'Howdy Pardner' AND fog = 'low' OR LOCATION = 1"]
    followed by one space. *)
Theorem sqlbuild_where_text :
  where_text sqlbuild
  = Some ("WHERE MATER = 'Howdy Pardner' AND fog = 'low' OR LOCATION = 1" +:+ " ").
Proof. reflexivity. Qed.

(** C3 as stated fails: the text is not character for character the
    string of the example, it carries a trailing space. *)
Lemma sqlbuild_where_text_trailing_space :
  where_text sqlbuild
  <> Some "WHERE MATER = 'Howdy Pardner' AND fog = 'low' OR LOCATION = 1".
Proof. discriminate. Qed.

(** C6.  A mapping entry whose key lower-cases neither to ['w_and'] nor
    to ['w_or'] is skipped without an error: the call returns normally
    with the same [where_text] as the call without that entry, in which
    the segments of the entries before and after it all appear. *)
Theorem where_clause_unrecognised (self : SQLBuilder.t) (first_arg : string)
    (before after : list (string * string)) (key value : string) :
  lower key <> "w_and" ->
  lower key <> "w_or" ->
  exists s1 s2,
    where_clause self first_arg (before ++ (key, value) :: after) = (s1, Ok tt) /\
    where_clause self first_arg (before ++ after) = (s2, Ok tt) /\
    where_text s1 = where_text s2 /\
    where_text s1
    = Some ("WHERE " +:+ first_arg +:+ " " +:+ segments before +:+ segments after).
Proof.
  intros Hand Hor.
  destruct (where_clause_text self first_arg (before ++ (key, value) :: after))
    as (s1 & Hc1 & Ht1).
  destruct (where_clause_text self first_arg (before ++ after)) as (s2 & Hc2 & Ht2).
  assert (Hseg : segment (key, value) = "").
  { unfold segment, connector_of. simpl.
    apply String.eqb_neq in Hand, Hor. now rewrite Hand, Hor. }
  assert (Heq : segments (before ++ (key, value) :: after)
                = segments before +:+ segments after).
  { rewrite segments_app. simpl. now rewrite Hseg. }
  exists s1, s2. split; [exact Hc1|]. split; [exact Hc2|].
  rewrite Ht1, Ht2, Heq, segments_app. split; reflexivity.
Qed.

Lemma where_clause_unrecognised_witness :
  lower "W_Not" <> "w_and" /\ lower "W_Not" <> "w_or" /\
  exists s1,
    where_clause init "a = 1"
      ([("w_and", "b = 2")] ++ ("W_Not", "c = 3") :: [("w_or", "d = 4")])
    = (s1, Ok tt) /\
    where_text s1 = Some "WHERE a = 1 AND b = 2 OR d = 4 ".
Proof.
  assert (H1 : lower "W_Not" <> "w_and") by discriminate.
  assert (H2 : lower "W_Not" <> "w_or") by discriminate.
  split; [exact H1|]. split; [exact H2|].
  destruct (where_clause_unrecognised init "a = 1" [("w_and", "b = 2")]
              [("w_or", "d = 4")] "W_Not" "c = 3" H1 H2)
    as (s1 & s2 & Hc1 & _ & _ & Ht).
  exists s1. split; [exact Hc1|]. rewrite Ht. reflexivity.
Defined.

End WhereClauseClaims.

(** * Properties of the timestamp accessors *)

Section FileDatesClaims.
Import FileDates.

(** C4 (the code departs from it).  Whatever the path and whatever the
    file system holds, both accessors raise NameError on the name
    [time]: the module imports neither [time] nor [os], and the lookup
    of [time] comes before any file metadata is read.  No date string
    is returned. *)
Theorem timestamp_accessors_raise (P : Platform) (a : string) :
  CREATED_TIME P a = Raise (NameError "time") /\
  MODIFIED_TIME P a = Raise (NameError "time").
Proof. split; reflexivity. Qed.

End FileDatesClaims.

(** * Properties of the logger setup *)

Section LoggingFacts.
Import Logging.

(** Runs the state-passing primitives of a computation on a world given
    by its fields. *)
Ltac run := cbv beta iota zeta delta
  [mbind M_bind mret M_ret lift modify load_local Logger_setLevel
   Logger_set_propagate addHandler update_logger new_handler new_FileHandler
   open_append Handler_setLevel setFormatter checkLevel assoc nameToLevel
   String.eqb Ascii.eqb Bool.eqb
   set_loggerDict set_root set_files set_stderr set_outbox set_next_id
   loggerDict root files stderr outbox next_id h_id h_kind h_level h_formatter].

Lemma existsb_fresh (k : nat) (hs : list Handler) :
  Forall (fun h => (h_id h < k)%nat) hs ->
  forall j, (k <= j)%nat -> existsb (fun h' => Nat.eqb (h_id h') j) hs = false.
Proof.
  induction 1 as [|h hs Hh _ IH]; intros j Hj; [reflexivity|].
  simpl. rewrite (IH j Hj). destruct (Nat.eqb_spec (h_id h) j); [lia|reflexivity].
Qed.

Lemma add_fresh (h : Handler) (lg : Logger) :
  Forall (fun h' => (h_id h' < h_id h)%nat) (lg_handlers lg) ->
  Logger_addHandler h lg = mkLogger (lg_level lg) (lg_propagate lg) (lg_handlers lg ++ [h]).
Proof.
  intros Hlt. unfold Logger_addHandler.
  now rewrite (existsb_fresh (h_id h) _ Hlt (h_id h)) by lia.
Qed.

Lemma add_three (lg : Logger) (k : nat) (h1 h2 h3 : Handler) :
  Forall (fun h => (h_id h < k)%nat) (lg_handlers lg) ->
  h_id h1 = k -> h_id h2 = S k -> h_id h3 = S (S k) ->
  Logger_addHandler h3 (Logger_addHandler h2 (Logger_addHandler h1 lg))
  = mkLogger (lg_level lg) (lg_propagate lg) (lg_handlers lg ++ [h1; h2; h3]).
Proof.
  intros Hlt H1 H2 H3.
  rewrite (add_fresh h1) by (rewrite H1; exact Hlt).
  rewrite (add_fresh h2).
  2:{ simpl. rewrite H2. apply Forall_app. split.
      - eapply Forall_impl; [exact Hlt|]. simpl. intros; lia.
      - constructor; [lia|constructor]. }
  rewrite (add_fresh h3).
  2:{ simpl. rewrite H3. rewrite !Forall_app. repeat split.
      - eapply Forall_impl; [exact Hlt|]. simpl. intros; lia.
      - constructor; [lia|constructor].
      - constructor; [lia|constructor]. }
  simpl. now rewrite <- !app_assoc.
Qed.


Lemma make_log_file_handler_runs (c : Config) (w : World) :
  file_mode c ->
  make_log_file_handler c w
  = (set_next_id
       (set_files w (match files w !! file_name c with
                     | Some _ => files w
                     | None => <[file_name c := []]> (files w)
                     end))
       (S (next_id w)),
     Ok (Some (mkHandler (next_id w) (FileHandler (file_name c)) INFO
                 (Some (file_formatter c))))).
Proof.
  destruct c as [name from to subj cred host type path].
  unfold file_mode, make_log_file_handler, file_name, file_formatter.
  cbn [log_file_type log_file_path].
  intros [-> | ->]; reflexivity.
Qed.

Lemma general_logger_runs (c : Config) (w : World) :
  ids_below w -> file_mode c ->
  exists w',
    general_logger c w = (w', Ok (ref_of_name (logger_name_arg c))) /\
    lookup_logger w' (ref_of_name (logger_name_arg c))
    = Some (mkLogger DEBUG true
              (handlers_of w (ref_of_name (logger_name_arg c)) ++ sinks c (next_id w))) /\
    (forall l', l' <> ref_of_name (logger_name_arg c) ->
                lookup_logger w' l' = lookup_logger w l') /\
    next_id w' = S (S (S (next_id w))) /\
    stderr w' = stderr w /\ outbox w' = outbox w /\
    files w' = match files w !! file_name c with
               | Some _ => files w
               | None => <[file_name c := []]> (files w)
               end.
Proof.
  intros Hids Hmode. destruct w as [d r f e o n].
  unfold general_logger, getLogger, ref_of_name, handlers_of, sinks, email_sink.
  destruct (String.eqb (logger_name_arg c) "" || String.eqb (logger_name_arg c) "root") eqn:Hroot.
  - pose proof (Hids RootLogger r eq_refl) as Hr.
    run. rewrite (make_log_file_handler_runs c _ Hmode). run.
    eexists; split; [reflexivity|].
    cbn [lookup_logger root loggerDict next_id stderr outbox files].
    split.
    { f_equal. rewrite (add_three _ n); [reflexivity|exact Hr|reflexivity..]. }
    split.
    { intros [|n'] Hne; [contradiction|reflexivity]. }
    repeat split; reflexivity.
  - cbn [loggerDict]. destruct (d !! logger_name_arg c) as [lg|] eqn:Hlk.
    + pose proof (Hids (Named (logger_name_arg c)) lg Hlk) as Hr.
      run. rewrite Hlk. run. rewrite (make_log_file_handler_runs c _ Hmode). run.
      eexists; split; [reflexivity|].
      cbn [lookup_logger root loggerDict next_id stderr outbox files].
      split.
      { rewrite !lookup_alter_eq, Hlk. cbn [fmap option_fmap option_map]. f_equal.
        rewrite (add_three _ n); [reflexivity|exact Hr|reflexivity..]. }
      split.
      { intros [|n'] Hne; [reflexivity|].
        assert (logger_name_arg c <> n') by congruence.
        cbn [lookup_logger loggerDict].
        now rewrite !lookup_alter_ne by assumption. }
      repeat split; reflexivity.
    + run. rewrite Hlk. run. rewrite (make_log_file_handler_runs c _ Hmode). run.
      eexists; split; [reflexivity|].
      cbn [lookup_logger root loggerDict next_id stderr outbox files].
      split.
      { rewrite !lookup_alter_eq, lookup_insert_eq, Hlk.
        cbn [fmap option_fmap option_map]. f_equal.
        rewrite (add_three _ n); [reflexivity|exact (List.Forall_nil _)|reflexivity..]. }
      split.
      { intros [|n'] Hne; [reflexivity|].
        assert (logger_name_arg c <> n') by congruence.
        cbn [lookup_logger loggerDict].
        now rewrite !lookup_alter_ne, lookup_insert_ne by assumption. }
      repeat split; reflexivity.
Qed.

Lemma make_log_file_handler_unassigned (c : Config) (w : World) :
  log_file_type c <> "log" -> log_file_type c <> "json" ->
  make_log_file_handler c w = (w, Ok None).
Proof.
  intros Hlog Hjson. unfold make_log_file_handler.
  apply String.eqb_neq in Hlog, Hjson. now rewrite Hlog, Hjson.
Qed.

Lemma general_logger_runs_ids (c : Config) (w w' : World) (l : LoggerRef) :
  ids_below w -> file_mode c -> general_logger c w = (w', Ok l) -> ids_below w'.
Proof.
  intros Hids Hmode Hrun.
  destruct (general_logger_runs c w Hids Hmode)
    as (w1 & Hrun1 & Hown & Hother & Hnext & _).
  rewrite Hrun in Hrun1. injection Hrun1 as <- ->.
  intros l' lg' Hl'. rewrite Hnext.
  destruct (decide (l' = ref_of_name (logger_name_arg c))) as [-> | Hne].
  - rewrite Hown in Hl'. injection Hl' as <-. cbn [lg_handlers].
    apply Forall_app. split.
    + unfold handlers_of.
      destruct (lookup_logger w (ref_of_name (logger_name_arg c))) as [lg|] eqn:Hlg;
        [|exact (List.Forall_nil _)].
      eapply Forall_impl; [exact (Hids _ _ Hlg)|]. simpl. intros; lia.
    + unfold sinks, email_sink.
      repeat (apply List.Forall_cons; [cbn [h_id]; lia|]). exact (List.Forall_nil _).
  - rewrite (Hother l' Hne) in Hl'.
    eapply Forall_impl; [exact (Hids _ _ Hl')|]. simpl. intros; lia.
Qed.

Lemma fresh_world_ids : ids_below fresh_world.
Proof.
  intros [|n] lg; cbn.
  - intros [= <-]. exact (List.Forall_nil _).
  - rewrite lookup_empty. discriminate.
Qed.

Lemma general_logger_unassigned_handler (c : Config) (w : World) :
  log_file_type c <> "log" ->
  log_file_type c <> "json" ->
  exists w',
    general_logger c w = (w', Raise (UnboundLocalError "log_file_handler")) /\
    handlers_of w' (ref_of_name (logger_name_arg c))
    = handlers_of w (ref_of_name (logger_name_arg c)) /\
    files w' = files w /\ stderr w' = stderr w /\ outbox w' = outbox w.
Proof.
  intros Hlog Hjson. destruct w as [d r f e o n].
  unfold general_logger, getLogger, ref_of_name, handlers_of.
  destruct (String.eqb (logger_name_arg c) "" || String.eqb (logger_name_arg c) "root").
  - run. rewrite (make_log_file_handler_unassigned c _ Hlog Hjson). run.
    eexists; split; [reflexivity|]. repeat split; reflexivity.
  - cbn [loggerDict].
    destruct (d !! logger_name_arg c) as [lg|] eqn:Hlk;
      run; rewrite Hlk; run;
      rewrite (make_log_file_handler_unassigned c _ Hlog Hjson); run;
      (eexists; split; [reflexivity|]);
      cbn [lookup_logger loggerDict files stderr outbox];
      (split; [|repeat split; reflexivity]).
    + now rewrite !lookup_alter_eq, Hlk.
    + now rewrite !lookup_alter_eq, lookup_insert_eq, Hlk.
Qed.

(** C8 (the code departs from it).  With a file-output mode that is
    neither ['log'] nor ['json'], [general_logger] returns no logger: it
    raises UnboundLocalError when it reads [log_file_handler] to attach
    it.  By then the named logger exists at level DEBUG, but no sink has
    been attached to it; no file has been created. *)
Theorem general_logger_other_mode (c : Config) (w : World) :
  log_file_type c <> "log" ->
  log_file_type c <> "json" ->
  exists w',
    general_logger c w = (w', Raise (UnboundLocalError "log_file_handler")) /\
    handlers_of w' (ref_of_name (logger_name_arg c))
    = handlers_of w (ref_of_name (logger_name_arg c)) /\
    files w' = files w /\ stderr w' = stderr w /\ outbox w' = outbox w.
Proof. exact (general_logger_unassigned_handler c w). Qed.

Lemma general_logger_other_mode_witness :
  exists w',
    general_logger
      (mkConfig "general_log" [] [] "CRITICAL level triggered" None "localhost"
         "none" "app") fresh_world
    = (w', Raise (UnboundLocalError "log_file_handler")) /\
    handlers_of w' (Named "general_log") = [] /\
    files w' = ∅.
Proof.
  destruct (general_logger_other_mode
              (mkConfig "general_log" [] [] "CRITICAL level triggered" None
                 "localhost" "none" "app") fresh_world)
    as (w' & Hrun & Hh & Hf & _); [discriminate|discriminate|].
  exists w'. split; [exact Hrun|]. split; [exact Hh|exact Hf].
Defined.

(** C9.  Two calls with the same logger name, each in a file-output
    mode that assigns the file handler, return the same logger of the
    registry, and the second call appends a second set of three sinks
    behind the first: the logger ends with both sets (six handlers more
    than before the first call), not with a single set. *)
Theorem general_logger_twice (c1 c2 : Config) (w : World) :
  ids_below w ->
  file_mode c1 ->
  file_mode c2 ->
  logger_name_arg c1 = logger_name_arg c2 ->
  exists w1 w2 l,
    general_logger c1 w = (w1, Ok l) /\
    general_logger c2 w1 = (w2, Ok l) /\
    handlers_of w1 l = handlers_of w l ++ sinks c1 (next_id w) /\
    handlers_of w2 l
    = handlers_of w l ++ sinks c1 (next_id w) ++ sinks c2 (3 + next_id w) /\
    length (handlers_of w2 l) = (length (handlers_of w l) + 6)%nat.
Proof.
  intros Hids Hm1 Hm2 Hname.
  destruct (general_logger_runs c1 w Hids Hm1)
    as (w1 & Hrun1 & Hown1 & _ & Hnext1 & _).
  pose proof (general_logger_runs_ids c1 w w1 _ Hids Hm1 Hrun1) as Hids1.
  destruct (general_logger_runs c2 w1 Hids1 Hm2)
    as (w2 & Hrun2 & Hown2 & _).
  rewrite <- Hname in Hrun2, Hown2.
  exists w1, w2, (ref_of_name (logger_name_arg c1)).
  assert (H1 : handlers_of w1 (ref_of_name (logger_name_arg c1))
               = handlers_of w (ref_of_name (logger_name_arg c1)) ++ sinks c1 (next_id w)).
  { unfold handlers_of at 1. now rewrite Hown1. }
  assert (H2 : handlers_of w2 (ref_of_name (logger_name_arg c1))
               = handlers_of w (ref_of_name (logger_name_arg c1))
                 ++ sinks c1 (next_id w) ++ sinks c2 (3 + next_id w)).
  { unfold handlers_of at 1. rewrite Hown2. cbn [lg_handlers].
    now rewrite H1, Hnext1, <- app_assoc. }
  split; [exact Hrun1|]. split; [exact Hrun2|]. split; [exact H1|].
  split; [exact H2|].
  rewrite H2, !length_app. simpl. lia.
Qed.

Lemma general_logger_twice_witness :
  exists w1 w2,
    general_logger (default_config "app") fresh_world = (w1, Ok (Named "general_log")) /\
    general_logger (default_config "app") w1 = (w2, Ok (Named "general_log")) /\
    handlers_of w1 (Named "general_log") = sinks (default_config "app") 0 /\
    handlers_of w2 (Named "general_log")
    = sinks (default_config "app") 0 ++ sinks (default_config "app") 3.
Proof.
  assert (Hm : file_mode (default_config "app")) by (left; reflexivity).
  destruct (general_logger_twice (default_config "app") (default_config "app")
              fresh_world fresh_world_ids Hm Hm eq_refl)
    as (w1 & w2 & l & Hrun1 & Hrun2 & H1 & H2 & _).
  assert (Hl : l = Named "general_log").
  { vm_compute in Hrun1. now injection Hrun1 as _ <-. }
  subst l. exists w1, w2.
  split; [exact Hrun1|]. split; [exact Hrun2|]. split; [exact H1|exact H2].
Defined.

Lemma parent_chain_head (w : World) (l : LoggerRef) (lg : Logger) :
  lookup_logger w l = Some lg -> exists rest, parent_chain w l = lg :: rest.
Proof.
  destruct l as [|n]; simpl; intros Hl.
  - injection Hl as <-. now exists [].
  - rewrite Hl. simpl. eauto.
Qed.

Lemma handlers_found_head (w : World) (l : LoggerRef) (lg : Logger) :
  lookup_logger w l = Some lg ->
  exists more, handlers_found w l = lg_handlers lg ++ more.
Proof.
  intros Hl. destruct (parent_chain_head w l lg Hl) as [rest Hc].
  unfold handlers_found. rewrite Hc. simpl. eauto.
Qed.

Lemma isEnabledFor_own (w : World) (l : LoggerRef) (lg : Logger) (level : Z) :
  lookup_logger w l = Some lg -> lg_level lg <> 0 ->
  isEnabledFor w l level = (lg_level lg <=? level).
Proof.
  intros Hl Hlv. destruct (parent_chain_head w l lg Hl) as [rest Hc].
  unfold isEnabledFor, getEffectiveLevel. rewrite Hc. simpl.
  destruct (Z.eqb_spec (lg_level lg) 0); [contradiction|reflexivity].
Qed.

Lemma emit_outbox (P : Platform) (h : Handler) (r : LogRecord) (w : World) :
  exists extra, outbox (emit P h r w) = outbox w ++ extra.
Proof.
  unfold emit. destruct (Handler_format P h r) as [msg|e].
  - destruct (h_kind h) as [fn| |host from to subj cred].
    + exists []. simpl. now rewrite app_nil_r.
    + exists []. simpl. now rewrite app_nil_r.
    + eexists. destruct (smtp_accepts P host from to); simpl; reflexivity.
  - exists []. simpl. now rewrite app_nil_r.
Qed.

Lemma call_handlers_outbox (P : Platform) (r : LogRecord) (hs : list Handler)
    (w : World) :
  exists extra, outbox (fold_left (call_handler P r) hs w) = outbox w ++ extra.
Proof.
  revert w. induction hs as [|h hs IH]; intros w; simpl.
  - exists []. now rewrite app_nil_r.
  - destruct (IH (call_handler P r w h)) as [x1 H1]. rewrite H1.
    unfold call_handler. destruct (h_level h <=? rec_levelno r).
    + destruct (emit_outbox P h r w) as [x0 H0]. rewrite H0.
      exists (x0 ++ x1). now rewrite app_assoc.
    + eauto.
Qed.

Lemma default_format_message (P : Platform) (r : LogRecord) :
  format_with P (PlainFormatter None None) r = Ok (rec_msg r).
Proof.
  transitivity (Ok (A := string) (rec_msg r +:+ "")).
  - vm_compute. reflexivity.
  - now rewrite append_nil_r.
Qed.

Lemma email_sink_emits (P : Platform) (c : Config) (id : nat) (r : LogRecord)
    (w : World) :
  rec_levelno r = CRITICAL ->
  outbox (call_handler P r w (email_sink c id))
  = outbox w ++ [mkEmail (mail_host_detail c) (critical_email_host_address c)
                   (critical_email_address_list c) (critical_email_subject c)
                   (email_credentials c) (rec_msg r)].
Proof.
  intros Hlv. unfold call_handler, email_sink, emit, Handler_format.
  cbn [h_level h_formatter h_kind default]. rewrite Hlv.
  change (CRITICAL <=? CRITICAL) with true. cbv iota.
  rewrite default_format_message.
  destruct (smtp_accepts _ _ _ _); reflexivity.
Qed.

Lemma log_enabled (P : Platform) (l : LoggerRef) (level : Z) (msg : string)
    (cs : CallSite) (w : World) :
  isEnabledFor w l level = true ->
  handlers_found w l <> [] ->
  fst (log P l level msg cs w)
  = fold_left (call_handler P (makeRecord l level msg cs)) (handlers_found w l) w.
Proof.
  intros Hen Hne. unfold log, modify, callHandlers. simpl. rewrite Hen.
  destruct (handlers_found w l); [contradiction|reflexivity].
Qed.

Lemma critical_reaches_email (P : Platform) (c : Config) (id : nat)
    (r : LogRecord) (hs1 hs2 : list Handler) (w : World) :
  rec_levelno r = CRITICAL ->
  exists before after,
    outbox (fold_left (call_handler P r) (hs1 ++ email_sink c id :: hs2) w)
    = outbox w ++ before ++
      [mkEmail (mail_host_detail c) (critical_email_host_address c)
         (critical_email_address_list c) (critical_email_subject c)
         (email_credentials c) (rec_msg r)] ++ after.
Proof.
  intros Hlv. rewrite fold_left_app. cbn [fold_left].
  destruct (call_handlers_outbox P r hs1 w) as [x1 H1].
  destruct (call_handlers_outbox P r hs2
              (call_handler P r (fold_left (call_handler P r) hs1 w)
                 (email_sink c id))) as [x2 H2].
  rewrite H2, (email_sink_emits P c id r _ Hlv), H1.
  exists x1, x2. now rewrite <- !app_assoc.
Qed.

(** C10.  Whenever [general_logger] returns a logger, whatever the
    sender, recipients, subject, credentials and mail host (the
    defaults included), the SMTP handler built from them is among the
    logger's handlers at level CRITICAL, and every critical event
    logged through the logger makes that handler attempt one message
    with those parameters and the event's text as its body. *)
Theorem critical_email_always_attached (P : Platform) (c : Config)
    (w w' : World) (l : LoggerRef) :
  ids_below w ->
  general_logger c w = (w', Ok l) ->
  email_sink c (2 + next_id w) ∈ handlers_of w' l /\
  h_level (email_sink c (2 + next_id w)) = CRITICAL /\
  forall msg cs, exists before after,
    outbox (fst (log P l CRITICAL msg cs w'))
    = outbox w' ++ before ++
      [mkEmail (mail_host_detail c) (critical_email_host_address c)
         (critical_email_address_list c) (critical_email_subject c)
         (email_credentials c) msg] ++ after.
Proof.
  intros Hids Hrun.
  assert (Hmode : file_mode c).
  { unfold file_mode.
    destruct (String.eqb_spec (log_file_type c) "log") as [|Hlog]; [now left|].
    destruct (String.eqb_spec (log_file_type c) "json") as [|Hjson]; [now right|].
    destruct (general_logger_unassigned_handler c w Hlog Hjson) as (w1 & Hr & _).
    rewrite Hr in Hrun. discriminate. }
  destruct (general_logger_runs c w Hids Hmode) as (w1 & Hrun1 & Hown & _).
  rewrite Hrun in Hrun1. injection Hrun1 as <- ->.
  assert (Hh : handlers_of w' (ref_of_name (logger_name_arg c))
               = handlers_of w (ref_of_name (logger_name_arg c)) ++ sinks c (next_id w)).
  { unfold handlers_of at 1. now rewrite Hown. }
  split.
  { rewrite Hh. apply elem_of_app. right. unfold sinks.
    do 2 apply list_elem_of_further. apply list_elem_of_here. }
  split; [reflexivity|].
  intros msg cs.
  destruct (handlers_found_head _ _ _ Hown) as [more Hfound].
  cbn [lg_handlers] in Hfound.
  rewrite log_enabled.
  2:{ rewrite (isEnabledFor_own _ _ _ _ Hown); [reflexivity|discriminate]. }
  2:{ rewrite Hfound. unfold sinks. destruct (handlers_of w _); discriminate. }
  rewrite Hfound. unfold sinks.
  replace ((handlers_of w (ref_of_name (logger_name_arg c))
            ++ [mkHandler (next_id w) (FileHandler (file_name c)) INFO
                  (Some (file_formatter c));
                mkHandler (S (next_id w)) StreamHandler DEBUG
                  (Some CustomTerminalFormat);
                email_sink c (S (S (next_id w)))]) ++ more)
    with ((handlers_of w (ref_of_name (logger_name_arg c))
           ++ [mkHandler (next_id w) (FileHandler (file_name c)) INFO
                 (Some (file_formatter c));
               mkHandler (S (next_id w)) StreamHandler DEBUG
                 (Some CustomTerminalFormat)])
          ++ email_sink c (S (S (next_id w))) :: more)
    by (now rewrite <- !app_assoc).
  apply critical_reaches_email. reflexivity.
Qed.

Lemma terminal_format_raises (P : Platform) (r : LogRecord) :
  In (rec_levelno r) [DEBUG; INFO; WARNING; ERROR; CRITICAL] ->
  terminal_format P r
  = Raise (ValueError "Formatting field not found in record: names").
Proof.
  destruct r as [nm lv ms cr mse pa li fu pn pr tn th]. cbn [rec_levelno In].
  intros [<- | [<- | [<- | [<- | [<- | []]]]]]; vm_compute; reflexivity.
Qed.

Lemma file_format_ok (P : Platform) (c : Config) (r : LogRecord) :
  file_mode c -> exists s, format_with P (file_formatter c) r = Ok s.
Proof.
  unfold file_mode, file_formatter. intros [-> | ->]; eexists; vm_compute; reflexivity.
Qed.

Lemma sinks_step (P : Platform) (c : Config) (k : nat) (r : LogRecord) (w : World) :
  file_mode c ->
  In (rec_levelno r) [DEBUG; INFO; WARNING; ERROR; CRITICAL] ->
  let w' := fold_left (call_handler P r) (sinks c k) w in
  console_lines w' = console_lines w /\
  logging_errors w'
  = logging_errors w ++ [S k] ++
    (if (CRITICAL <=? rec_levelno r)
        && negb (smtp_accepts P (mail_host_detail c)
                   (critical_email_host_address c) (critical_email_address_list c))
     then [S (S k)] else []) /\
  length (file_entries w' (file_name c))
  = (length (file_entries w (file_name c))
     + (if (INFO <=? rec_levelno r)%Z then 1 else 0))%nat /\
  outbox w'
  = outbox w ++
    (if CRITICAL <=? rec_levelno r
     then [mkEmail (mail_host_detail c) (critical_email_host_address c)
             (critical_email_address_list c) (critical_email_subject c)
             (email_credentials c) (rec_msg r)]
     else []) /\
  loggerDict w' = loggerDict w /\ root w' = root w.
Proof.
  intros Hmode Hlv. cbv zeta.
  destruct (file_format_ok P c r Hmode) as [s Hs].
  pose proof (terminal_format_raises P r Hlv) as Ht.
  pose proof (default_format_message P r) as Hd.
  unfold sinks, email_sink. cbn [fold_left].
  unfold call_handler, emit, Handler_format.
  cbn [h_level h_formatter h_kind h_id default from_option id].
  rewrite Hs, Hd. cbn [format_with]. rewrite Ht.
  destruct w as [d rt f e o n].
  unfold console_lines, logging_errors, file_entries, handleError, write_file.
  destruct (smtp_accepts P _ _ _);
    cbn [In] in Hlv;
    destruct Hlv as [Hl | [Hl | [Hl | [Hl | [Hl | []]]]]]; rewrite <- Hl;
    cbn -[omap NL String.append];
    rewrite ?omap_app, ?lookup_insert_eq, ?length_app, ?app_nil_r;
    cbn -[NL String.append]; rewrite ?app_nil_r;
    repeat split; try reflexivity; try lia;
    try (rewrite length_app; simpl; lia);
    try (now rewrite <- app_assoc).
Qed.

Lemma length_append (s t : string) :
  String.length (s +:+ t) = (String.length s + String.length t)%nat.
Proof. induction s as [|a s IH]; [reflexivity|]. rewrite append_cons. simpl. now rewrite IH. Qed.

Lemma dotted_prefixes_shorter (s pre p : string) :
  p ∈ dotted_prefixes pre s ->
  (String.length p < String.length pre + String.length s)%nat.
Proof.
  revert pre. induction s as [|a s IH]; intros pre Hp; simpl in Hp.
  - inversion Hp.
  - apply elem_of_app in Hp as [Hp | Hp].
    + destruct (Ascii.eqb a "." && negb (String.eqb pre "")); [|inversion Hp].
      apply list_elem_of_singleton in Hp as ->. simpl. lia.
    + apply IH in Hp. rewrite length_append in Hp. simpl in *. lia.
Qed.

Lemma dotted_prefix_proper (n p : string) : p ∈ dotted_prefixes "" n -> p <> n.
Proof. intros Hp ->. apply dotted_prefixes_shorter in Hp. simpl in Hp. lia. Qed.

Lemma omap_none {A B} (f : A -> option B) (l : list A) :
  (forall x, x ∈ l -> f x = None) -> omap f l = [].
Proof.
  induction l as [|a l IH]; intros H; [reflexivity|].
  simpl. rewrite (H a) by apply list_elem_of_here.
  apply IH. intros x Hx. apply H. now apply list_elem_of_further.
Qed.

Lemma handlers_found_frame (w w' : World) (l : LoggerRef) (level : Z) :
  loggerDict w' = loggerDict w -> root w' = root w ->
  handlers_found w' l = handlers_found w l /\
  isEnabledFor w' l level = isEnabledFor w l level.
Proof.
  intros Hd Hr.
  unfold handlers_found, isEnabledFor, getEffectiveLevel, parent_chain.
  now rewrite Hd, Hr.
Qed.

(** The logger a first call sets up in a new process meets exactly its
    own three sinks and lets every severity through. *)
Lemma fresh_logger_found (c : Config) (w1 : World) (l : LoggerRef) :
  file_mode c ->
  general_logger c fresh_world = (w1, Ok l) ->
  handlers_found w1 l = sinks c 0 /\
  (forall level, isEnabledFor w1 l level = (DEBUG <=? level)) /\
  stderr w1 = [] /\ outbox w1 = [] /\ file_entries w1 (file_name c) = [].
Proof.
  intros Hmode Hrun.
  destruct (general_logger_runs c fresh_world fresh_world_ids Hmode)
    as (w' & Hrun' & Hown & Hother & _ & Herr & Hout & Hfiles).
  rewrite Hrun in Hrun'. injection Hrun' as <- ->.
  assert (Hold : handlers_of fresh_world (ref_of_name (logger_name_arg c)) = []).
  { unfold handlers_of. destruct (ref_of_name _); [reflexivity|].
    cbn. now rewrite lookup_empty. }
  rewrite Hold in Hown. cbn [app] in Hown.
  split; [|split; [|split; [exact Herr|split; [exact Hout|]]]].
  - unfold handlers_found, parent_chain.
    destruct (ref_of_name (logger_name_arg c)) as [|n] eqn:Href.
    + cbn in Hown. injection Hown as ->. cbn. now rewrite ?app_nil_r.
    + cbn in Hown. rewrite Hown.
      rewrite omap_none.
      2:{ intros p Hp. apply list_elem_of_In, List.in_rev, list_elem_of_In in Hp.
          apply dotted_prefix_proper in Hp.
          assert (Hne : Named p <> Named n) by congruence.
          apply (Hother (Named p)) in Hne. cbn in Hne. now rewrite lookup_empty in Hne. }
      assert (Hroot : root w1 = mkLogger WARNING true []).
      { assert (Hne : RootLogger <> Named n) by discriminate.
        apply Hother in Hne. cbn in Hne. now injection Hne. }
      rewrite Hroot. cbn. now rewrite ?app_nil_r.
  - intros level. now rewrite (isEnabledFor_own _ _ _ _ Hown) by discriminate.
  - unfold file_entries. rewrite Hfiles. cbn. rewrite lookup_empty.
    now rewrite lookup_insert_eq.
Qed.

Lemma log_step (P : Platform) (c : Config) (k : nat) (l : LoggerRef)
    (lvl : Z) (msg : string) (cs : CallSite) (w : World) :
  file_mode c ->
  handlers_found w l = sinks c k ->
  isEnabledFor w l lvl = true ->
  In lvl [DEBUG; INFO; WARNING; ERROR; CRITICAL] ->
  exists w',
    log P l lvl msg cs w = (w', Ok tt) /\
    console_lines w' = console_lines w /\
    logging_errors w'
    = logging_errors w ++ [S k] ++
      (if (CRITICAL <=? lvl)
          && negb (smtp_accepts P (mail_host_detail c)
                     (critical_email_host_address c) (critical_email_address_list c))
       then [S (S k)] else []) /\
    length (file_entries w' (file_name c))
    = (length (file_entries w (file_name c)) + (if (INFO <=? lvl)%Z then 1 else 0))%nat /\
    outbox w'
    = outbox w ++
      (if CRITICAL <=? lvl
       then [mkEmail (mail_host_detail c) (critical_email_host_address c)
               (critical_email_address_list c) (critical_email_subject c)
               (email_credentials c) msg]
       else []) /\
    handlers_found w' l = sinks c k /\
    (forall lv', isEnabledFor w' l lv' = isEnabledFor w l lv').
Proof.
  intros Hmode Hfound Hen Hlv.
  exists (fst (log P l lvl msg cs w)). split; [reflexivity|].
  rewrite log_enabled; [|exact Hen|rewrite Hfound; discriminate]. rewrite Hfound.
  destruct (sinks_step P c k (makeRecord l lvl msg cs) w Hmode Hlv)
    as (Hc & He & Hf & Ho & Hd & Hr).
  split; [exact Hc|]. split; [exact He|]. split; [exact Hf|]. split; [exact Ho|].
  split.
  - transitivity (handlers_found w l); [|exact Hfound].
    exact (proj1 (handlers_found_frame _ _ l 0 Hd Hr)).
  - intros lv'. exact (proj2 (handlers_found_frame _ _ l lv' Hd Hr)).
Qed.

(** C7 (the code departs from it).  On the logger a first call sets up
    in a new process, in either file mode, one event of each of the five
    severities writes no console line at all: for every event the
    console formatter raises on the field [names], which no record
    has, and the handler only reports the error.  The file receives one
    entry for each of the four events at INFO or above and the email
    sink attempts exactly one message, for the critical event. *)
Theorem five_severities_on_new_logger (P : Platform) (c : Config)
    (m1 m2 m3 m4 m5 : string) (cs : CallSite) :
  file_mode c ->
  exists w1 l w2,
    general_logger c fresh_world = (w1, Ok l) /\
    five_events P l m1 m2 m3 m4 m5 cs w1 = (w2, Ok tt) /\
    console_lines w2 = [] /\
    logging_errors w2
    = [1; 1; 1; 1; 1]%nat ++
      (if smtp_accepts P (mail_host_detail c) (critical_email_host_address c)
            (critical_email_address_list c)
       then [] else [2%nat]) /\
    length (file_entries w2 (file_name c)) = 4%nat /\
    outbox w2
    = [mkEmail (mail_host_detail c) (critical_email_host_address c)
         (critical_email_address_list c) (critical_email_subject c)
         (email_credentials c) m5].
Proof.
  intros Hmode.
  destruct (general_logger_runs c fresh_world fresh_world_ids Hmode) as (w1 & Hrun & _).
  destruct (fresh_logger_found c w1 _ Hmode Hrun) as (Hfound & Hen & Herr & Hout & Hfile).
  set (l := ref_of_name (logger_name_arg c)) in *.
  destruct (log_step P c 0 l DEBUG m1 cs w1 Hmode Hfound)
    as (wa & Hla & Hca & Hea & Hfa & Hoa & Hfounda & Hena);
    [now rewrite Hen|cbn; tauto|].
  destruct (log_step P c 0 l INFO m2 cs wa Hmode Hfounda)
    as (wb & Hlb & Hcb & Heb & Hfb & Hob & Hfoundb & Henb);
    [now rewrite Hena, Hen|cbn; tauto|].
  destruct (log_step P c 0 l WARNING m3 cs wb Hmode Hfoundb)
    as (wc & Hlc & Hcc & Hec & Hfc & Hoc & Hfoundc & Henc);
    [now rewrite Henb, Hena, Hen|cbn; tauto|].
  destruct (log_step P c 0 l ERROR m4 cs wc Hmode Hfoundc)
    as (wd & Hld & Hcd & Hed & Hfd & Hod & Hfoundd & Hend);
    [now rewrite Henc, Henb, Hena, Hen|cbn; tauto|].
  destruct (log_step P c 0 l CRITICAL m5 cs wd Hmode Hfoundd)
    as (we & Hle & Hce & Hee & Hfe & Hoe & _ & _);
    [now rewrite Hend, Henc, Henb, Hena, Hen|cbn; tauto|].
  exists w1, l, we. split; [exact Hrun|]. split.
  { unfold five_events, mbind, M_bind. now rewrite Hla, Hlb, Hlc, Hld, Hle. }
  unfold console_lines, logging_errors in *. rewrite Herr in *.
  split; [now rewrite Hce, Hcd, Hcc, Hcb, Hca|].
  split.
  { rewrite Hee, Hed, Hec, Heb, Hea. cbn.
    destruct (smtp_accepts _ _ _ _); reflexivity. }
  split; [rewrite Hfe, Hfd, Hfc, Hfb, Hfa, Hfile; reflexivity|].
  rewrite Hoe, Hod, Hoc, Hob, Hoa, Hout. reflexivity.
Qed.

Lemma five_severities_on_new_logger_witness :
  exists w1 w2,
    general_logger (default_config "app") fresh_world
    = (w1, Ok (Named "general_log")) /\
    five_events sample_platform (Named "general_log")
      "starting" "ready" "disk nearly full" "write failed" "shutting down"
      sample_call_site w1 = (w2, Ok tt) /\
    console_lines w2 = [] /\
    length (file_entries w2 "app.log") = 4%nat /\
    length (outbox w2) = 1%nat.
Proof.
  assert (Hm : file_mode (default_config "app")) by (left; reflexivity).
  destruct (five_severities_on_new_logger sample_platform (default_config "app")
              "starting" "ready" "disk nearly full" "write failed" "shutting down"
              sample_call_site Hm)
    as (w1 & l & w2 & Hrun & Hlog & Hc & _ & Hf & Ho).
  assert (Hl : l = Named "general_log").
  { vm_compute in Hrun. now injection Hrun as _ <-. }
  subst l. exists w1, w2.
  split; [exact Hrun|]. split; [exact Hlog|]. split; [exact Hc|].
  split; [exact Hf|]. now rewrite Ho.
Defined.

Lemma critical_email_always_attached_witness :
  ids_below fresh_world /\
  exists w',
    general_logger (default_config "app") fresh_world
    = (w', Ok (Named "general_log")) /\
    email_sink (default_config "app") 2 ∈ handlers_of w' (Named "general_log") /\
    exists before after,
      outbox (fst (log sample_platform (Named "general_log") CRITICAL
                     "shutting down" sample_call_site w'))
      = outbox w' ++ before ++
        [mkEmail "localhost" [] [] "CRITICAL level triggered" None "shutting down"]
        ++ after.
Proof.
  split; [exact fresh_world_ids|].
  exists (fst (general_logger (default_config "app") fresh_world)).
  assert (Hrun : general_logger (default_config "app") fresh_world
                 = (fst (general_logger (default_config "app") fresh_world),
                    Ok (Named "general_log"))) by reflexivity.
  split; [exact Hrun|].
  destruct (critical_email_always_attached sample_platform (default_config "app")
              fresh_world _ _ fresh_world_ids Hrun) as (Hin & _ & Hsend).
  split; [exact Hin|]. exact (Hsend "shutting down" sample_call_site).
Defined.

End LoggingFacts.

(** * Further properties of SQLBuilder *)

Section SQLBuilderComposition.
Import SQLBuilder.

Lemma col_selection_text (self : SQLBuilder.t) (cols : list string) :
  cols <> [] ->
  selection_text (fst (col_selection self cols)) = Some ("SELECT " +:+ join ", " cols).
Proof.
  intros Hne. destruct (last_is_Some cols Hne) as [l Hl].
  unfold col_selection, last_item, all_but_last. rewrite Hl. cbn.
  now rewrite selection_loop_leading, append_assoc, (leading_last_join cols l Hl).
Qed.

Lemma join_cons (sep x : string) (l : list string) :
  l <> [] -> join sep (x :: l) = x +:+ sep +:+ join sep l.
Proof. destruct l; [contradiction|reflexivity]. Qed.

Lemma join_merge (sep a b : string) (l1 l2 : list string) :
  join sep (l1 ++ (a +:+ sep +:+ b) :: l2) = join sep (l1 ++ a :: b :: l2).
Proof.
  induction l1 as [|x l1 IH].
  - cbn [app]. rewrite (join_cons sep a) by discriminate.
    destruct l2 as [|y l2]; [reflexivity|].
    rewrite !join_cons by discriminate. now rewrite !append_assoc.
  - cbn [app]. rewrite !join_cons by (destruct l1; discriminate). now rewrite IH.
Qed.

Lemma last_char_app (s t : string) : t <> "" -> last_char (s +:+ t) = last_char t.
Proof.
  intros Ht. induction s as [|a s IH]; [reflexivity|].
  rewrite append_cons. simpl. rewrite IH.
  destruct (s +:+ t) eqn:Hst; [|reflexivity].
  destruct s; [|discriminate]. simpl in Hst. contradiction.
Qed.

Lemma last_char_segment (t : string) (kv : string * string) :
  last_char t = Some " "%char -> last_char (t +:+ segment kv) = Some " "%char.
Proof.
  intros Ht. unfold segment. destruct (connector_of (fst kv)) as [c|].
  - rewrite <- !append_assoc. now rewrite last_char_app by discriminate.
  - now rewrite append_nil_r.
Qed.

Lemma last_char_segments (kwargs : list (string * string)) (t : string) :
  last_char t = Some " "%char -> last_char (t +:+ segments kwargs) = Some " "%char.
Proof.
  revert t. induction kwargs as [|kv kwargs IH]; intros t Ht; simpl.
  - now rewrite append_nil_r.
  - rewrite <- append_assoc. apply IH. now apply last_char_segment.
Qed.




(** X1.  Neither builder keeps anything of an earlier call.  Whatever
    the first selection was, valid or not, the [col_selection] that
    follows it returns what it returns on the untouched object and
    leaves the same object; a second [where_clause] replaces
    [where_kwargs] and [where_text], it never appends to the text
    already built. *)
Theorem builders_last_call_wins (self : SQLBuilder.t) (a b : list string)
    (fa fb : string) (ka kb : list (string * string)) :
  col_selection (fst (col_selection self a)) b = col_selection self b /\
  where_clause (fst (where_clause self fa ka)) fb kb = where_clause self fb kb.
Proof.
  split; [|reflexivity].
  unfold col_selection. destruct (last_item a), (last_item b); reflexivity.
Qed.

(** X2.  The two builders do not interfere: [col_selection] leaves the
    WHERE attributes alone, [where_clause] leaves the SELECT attributes
    alone, and building the two clauses in either order gives the same
    object. *)
Theorem selection_and_where_independent (self : SQLBuilder.t)
    (cols : list string) (first_arg : string) (kwargs : list (string * string)) :
  where_text (fst (col_selection self cols)) = where_text self /\
  where_kwargs (fst (col_selection self cols)) = where_kwargs self /\
  selection_text (fst (where_clause self first_arg kwargs)) = selection_text self /\
  selection_args (fst (where_clause self first_arg kwargs)) = selection_args self /\
  fst (where_clause (fst (col_selection self cols)) first_arg kwargs)
  = fst (col_selection (fst (where_clause self first_arg kwargs)) cols).
Proof.
  unfold col_selection. destruct (last_item cols); repeat split; reflexivity.
Qed.

(** X3.  Whatever the base predicate and whatever the keys of the
    mapping, recognised or not, the text [where_clause] builds starts
    with ["WHERE "] and ends with a space. *)
Theorem where_text_shape (self : SQLBuilder.t) (first_arg : string)
    (kwargs : list (string * string)) :
  exists text,
    where_text (fst (where_clause self first_arg kwargs)) = Some text /\
    String.prefix "WHERE " text = true /\
    last_char text = Some " "%char.
Proof.
  destruct (where_clause_text self first_arg kwargs) as (s' & Hcall & Htext).
  rewrite Hcall. cbn [fst]. eexists. split; [exact Htext|].
  split; [apply prefix_app|].
  change ("WHERE " +:+ first_arg +:+ " " +:+ segments kwargs)
    with ("WHERE " +:+ (first_arg +:+ " " +:+ segments kwargs)).
  rewrite last_char_app.
  2:{ destruct first_arg; discriminate. }
  rewrite <- append_assoc. apply last_char_segments.
  now rewrite last_char_app by discriminate.
Qed.



(** X5.  Nothing is escaped in a column name: a name that contains the
    separator [", "] gives the same SELECT text as the two names it
    splits into, at any place in the sequence. *)
Theorem col_selection_separator_in_name (self : SQLBuilder.t)
    (before after : list string) (a b : string) :
  selection_text (fst (col_selection self (before ++ (a +:+ ", " +:+ b) :: after)))
  = selection_text (fst (col_selection self (before ++ a :: b :: after))).
Proof.
  rewrite !col_selection_text by (destruct before; discriminate).
  now rewrite join_merge.
Qed.

End SQLBuilderComposition.

(** * Further properties of the logger setup *)

Section FormatterProperties.
Import Logging.

Lemma plain_default_message (P : Platform) (datefmt : option string) (r : LogRecord) :
  plain_format P None datefmt r = Ok (rec_msg r).
Proof.
  transitivity (Ok (A := string) (rec_msg r +:+ "")).
  - destruct datefmt; vm_compute; reflexivity.
  - now rewrite append_nil_r.
Qed.

Lemma FORMATS_get_other (lv : Z) :
  ~ In lv [DEBUG; INFO; WARNING; ERROR; CRITICAL] -> FORMATS_get lv FORMATS = None.
Proof.
  intros Hn. unfold FORMATS, FORMATS_get.
  repeat match goal with
  | |- context [?k =? lv] =>
      destruct (Z.eqb_spec k lv) as [Heq|_];
      [exfalso; apply Hn; rewrite <- Heq; cbn; tauto|]
  end.
  reflexivity.
Qed.

(** X6.  For a record at any of the five standard levels
    [CustomTerminalFormat.format] raises, because each entry of
    [FORMATS] names the field [names]; a console handler carrying this
    formatter then writes nothing and only reports the error. *)
Theorem terminal_format_standard_levels (P : Platform) (r : LogRecord) :
  In (rec_levelno r) [DEBUG; INFO; WARNING; ERROR; CRITICAL] ->
  forall w k,
    terminal_format P r
    = Raise (ValueError "Formatting field not found in record: names") /\
    call_handler P r w (console_sink k)
    = set_stderr w (stderr w ++ [LoggingError k]).
Proof.
  intros Hlv w k. pose proof (terminal_format_raises P r Hlv) as Hr.
  split; [exact Hr|].
  unfold call_handler, console_sink, emit, Handler_format.
  cbn [h_level h_formatter h_kind h_id default from_option id format_with].
  rewrite Hr.
  assert (Hle : (DEBUG <=? rec_levelno r) = true).
  { cbn [In] in Hlv. destruct Hlv as [<- | [<- | [<- | [<- | [<- | []]]]]]; reflexivity. }
  now rewrite Hle.
Qed.

(** X7.  For a record at any other level (a custom level, or NOTSET)
    [FORMATS.get] finds no entry and the formatter falls back on the
    default format: [CustomTerminalFormat.format] returns the bare
    message, and a console handler carrying it writes that message as
    one line when the level is at least DEBUG. *)
Theorem terminal_format_other_levels (P : Platform) (r : LogRecord) :
  ~ In (rec_levelno r) [DEBUG; INFO; WARNING; ERROR; CRITICAL] ->
  forall w k,
    terminal_format P r = Ok (rec_msg r) /\
    call_handler P r w (console_sink k)
    = if DEBUG <=? rec_levelno r
      then set_stderr w (stderr w ++ [Written (rec_msg r +:+ NL)])
      else w.
Proof.
  intros Hlv w k.
  assert (Hr : terminal_format P r = Ok (rec_msg r)).
  { unfold terminal_format. rewrite (FORMATS_get_other _ Hlv).
    apply plain_default_message. }
  split; [exact Hr|].
  unfold call_handler, console_sink, emit, Handler_format.
  cbn [h_level h_formatter h_kind h_id default from_option id format_with].
  now rewrite Hr.
Qed.

End FormatterProperties.

Section JsonFormatterProperties.
Import Logging.

(** X8.  When every value of [fmt_dict] names an attribute of the
    record, [JsonFormatter.formatMessage] returns a dictionary with the
    keys of [fmt_dict], in the same order, each bound to the attribute
    its value names. *)
Theorem formatMessage_known (d : string -> option PyVal)
    (fmt_dict : list (string * string)) :
  Forall (fun kv => is_Some (d (snd kv))) fmt_dict ->
  exists vals,
    formatMessage d fmt_dict = Ok vals /\
    map fst vals = map fst fmt_dict /\
    map (fun kv => Some (snd kv)) vals = map (fun kv => d (snd kv)) fmt_dict.
Proof.
  induction 1 as [|[k v] rest [x Hx] _ (vals & Hv & Hk & Hd)].
  - exists []. repeat split.
  - cbn [snd] in Hx. exists ((k, x) :: vals). cbn [formatMessage]. rewrite Hx, Hv.
    split; [reflexivity|]. cbn. now rewrite Hk, Hd, Hx.
Qed.

(** X9.  [JsonFormatter.formatMessage] raises KeyError on the first
    value of [fmt_dict] that names no attribute of the record, whatever
    follows it. *)
Theorem formatMessage_unknown (d : string -> option PyVal)
    (known rest : list (string * string)) (k v : string) :
  Forall (fun kv => is_Some (d (snd kv))) known ->
  d v = None ->
  formatMessage d (known ++ (k, v) :: rest) = Raise (KeyError v).
Proof.
  intros Hknown Hv. induction Hknown as [|[k0 v0] known [x Hx] _ IH].
  - cbn. now rewrite Hv.
  - cbn [app formatMessage]. cbn [snd] in Hx. now rewrite Hx, IH.
Qed.



End JsonFormatterProperties.

Section SetupProperties.
Import Logging.

Ltac run := cbv beta iota zeta delta
  [mbind M_bind mret M_ret lift modify load_local Logger_setLevel
   Logger_set_propagate addHandler update_logger new_handler new_FileHandler
   open_append Handler_setLevel setFormatter checkLevel assoc nameToLevel
   String.eqb Ascii.eqb Bool.eqb
   set_loggerDict set_root set_files set_stderr set_outbox set_next_id
   loggerDict root files stderr outbox next_id h_id h_kind h_level h_formatter].

(** X11.  Called with the name of a logger that already exists,
    [general_logger] overrides its level with DEBUG and its [propagate]
    flag with True, and keeps the handlers it had, ahead of the three
    new ones. *)
Theorem general_logger_reconfigures (c : Config) (w : World) (lg0 : Logger) :
  ids_below w ->
  file_mode c ->
  lookup_logger w (ref_of_name (logger_name_arg c)) = Some lg0 ->
  exists w' lg,
    general_logger c w = (w', Ok (ref_of_name (logger_name_arg c))) /\
    lookup_logger w' (ref_of_name (logger_name_arg c)) = Some lg /\
    lg_level lg = DEBUG /\
    lg_propagate lg = true /\
    lg_handlers lg = lg_handlers lg0 ++ sinks c (next_id w).
Proof.
  intros Hids Hmode Hl0.
  destruct (general_logger_runs c w Hids Hmode) as (w' & Hrun & Hown & _).
  unfold handlers_of in Hown. rewrite Hl0 in Hown.
  exists w', (mkLogger DEBUG true (lg_handlers lg0 ++ sinks c (next_id w))).
  repeat split; assumption.
Qed.

(** X12.  A call that returns changes no other logger, writes nothing
    to the console and sends no mail; the only file it touches is
    [log_file_path + "." + log_file_type], which exists afterwards with
    whatever it held before (it is opened for appending). *)
Theorem general_logger_frame (c : Config) (w w' : World) (l : LoggerRef) :
  ids_below w ->
  general_logger c w = (w', Ok l) ->
  (forall l', l' <> l -> lookup_logger w' l' = lookup_logger w l') /\
  stderr w' = stderr w /\
  outbox w' = outbox w /\
  (forall path, path <> file_name c -> files w' !! path = files w !! path) /\
  files w' !! file_name c = Some (default [] (files w !! file_name c)).
Proof.
  intros Hids Hrun.
  assert (Hmode : file_mode c).
  { unfold file_mode.
    destruct (String.eqb_spec (log_file_type c) "log") as [|Hlog]; [now left|].
    destruct (String.eqb_spec (log_file_type c) "json") as [|Hjson]; [now right|].
    destruct (general_logger_unassigned_handler c w Hlog Hjson) as (w1 & Hr & _).
    rewrite Hr in Hrun. discriminate. }
  destruct (general_logger_runs c w Hids Hmode)
    as (w1 & Hrun1 & _ & Hother & _ & Herr & Hout & Hfiles).
  rewrite Hrun in Hrun1. injection Hrun1 as <- ->.
  split; [exact Hother|]. split; [exact Herr|]. split; [exact Hout|].
  rewrite Hfiles. split.
  - intros path Hne. destruct (files w !! file_name c); [reflexivity|].
    now rewrite lookup_insert_ne by congruence.
  - destruct (files w !! file_name c) eqn:Hf; [exact Hf|].
    now rewrite lookup_insert_eq.
Qed.

(** X13.  With the logger name [""] or ["root"] the call configures
    the root logger itself: it returns the root logger, sets its level
    to DEBUG and attaches the three sinks to it, and registers no named
    logger. *)
Theorem general_logger_root_name (c : Config) (w : World) :
  ids_below w ->
  file_mode c ->
  logger_name_arg c = "" \/ logger_name_arg c = "root" ->
  exists w',
    general_logger c w = (w', Ok RootLogger) /\
    root w' = mkLogger DEBUG true (lg_handlers (root w) ++ sinks c (next_id w)) /\
    loggerDict w' = loggerDict w.
Proof.
  intros Hids Hmode Hname.
  assert (Href : ref_of_name (logger_name_arg c) = RootLogger).
  { unfold ref_of_name. destruct Hname as [-> | ->]; reflexivity. }
  destruct (general_logger_runs c w Hids Hmode) as (w' & Hrun & Hown & Hother & _).
  rewrite Href in Hrun, Hown, Hother. cbn in Hown.
  exists w'. split; [exact Hrun|]. split; [now injection Hown|].
  apply map_eq. intros n.
  assert (Hne : Named n <> RootLogger) by discriminate.
  exact (Hother (Named n) Hne).
Qed.

(** X14.  The call that fails on an unassigned [log_file_handler] has
    already acted: the logger of that name is registered, at level DEBUG
    with [propagate] True and the handlers it had before, and the
    console and email handlers were built but attached to nothing. *)
Theorem general_logger_failure_leaves_logger (c : Config) (w : World) :
  log_file_type c <> "log" ->
  log_file_type c <> "json" ->
  exists w',
    general_logger c w = (w', Raise (UnboundLocalError "log_file_handler")) /\
    lookup_logger w' (ref_of_name (logger_name_arg c))
    = Some (mkLogger DEBUG true (handlers_of w (ref_of_name (logger_name_arg c)))) /\
    next_id w' = S (S (next_id w)).
Proof.
  intros Hlog Hjson. destruct w as [d r f e o n].
  unfold general_logger, getLogger, ref_of_name, handlers_of.
  destruct (String.eqb (logger_name_arg c) "" || String.eqb (logger_name_arg c) "root").
  - run. rewrite (make_log_file_handler_unassigned c _ Hlog Hjson). run.
    eexists; split; [reflexivity|]. split; reflexivity.
  - cbn [loggerDict].
    destruct (d !! logger_name_arg c) as [lg|] eqn:Hlk;
      run; rewrite Hlk; run;
      rewrite (make_log_file_handler_unassigned c _ Hlog Hjson); run;
      (eexists; split; [reflexivity|]);
      cbn [lookup_logger loggerDict next_id];
      (split; [|reflexivity]).
    + now rewrite !lookup_alter_eq, Hlk.
    + now rewrite !lookup_alter_eq, lookup_insert_eq, Hlk.
Qed.

End SetupProperties.

Section SinkProperties.
Import Logging.

Lemma sinks_are (c : Config) (k : nat) :
  sinks c k = [file_sink c k; console_sink (S k); email_sink c (S (S k))].
Proof. reflexivity. Qed.







End SinkProperties.

Section LoggingExamples.
Import Logging.

Lemma terminal_format_standard_levels_witness :
  terminal_format sample_platform
    (makeRecord (Named "general_log") WARNING "disk nearly full" sample_call_site)
  = Raise (ValueError "Formatting field not found in record: names") /\
  stderr (call_handler sample_platform
            (makeRecord (Named "general_log") WARNING "disk nearly full"
               sample_call_site)
            fresh_world (console_sink 1))
  = [LoggingError 1].
Proof.
  assert (Hl : In (rec_levelno (makeRecord (Named "general_log") WARNING
                                  "disk nearly full" sample_call_site))
                 [DEBUG; INFO; WARNING; ERROR; CRITICAL]) by (cbn; tauto).
  destruct (terminal_format_standard_levels sample_platform _ Hl fresh_world 1%nat)
    as [Hf Hc].
  split; [exact Hf|]. rewrite Hc. reflexivity.
Defined.

Lemma terminal_format_other_levels_witness :
  terminal_format sample_platform
    (makeRecord (Named "general_log") 25 "half way" sample_call_site)
  = Ok "half way" /\
  stderr (call_handler sample_platform
            (makeRecord (Named "general_log") 25 "half way" sample_call_site)
            fresh_world (console_sink 1))
  = [Written ("half way" +:+ NL)].
Proof.
  assert (Hl : ~ In (rec_levelno (makeRecord (Named "general_log") 25 "half way"
                                    sample_call_site))
                   [DEBUG; INFO; WARNING; ERROR; CRITICAL]).
  { cbn. intros [H | [H | [H | [H | [H | []]]]]]; discriminate H. }
  destruct (terminal_format_other_levels sample_platform _ Hl fresh_world 1%nat)
    as [Hf Hc].
  split; [exact Hf|]. rewrite Hc. reflexivity.
Defined.

Lemma formatMessage_known_witness :
  exists vals,
    formatMessage
      (record_dict "2024-01-31"
         (makeRecord (Named "general_log") INFO "ready" sample_call_site))
      [("level", "levelname"); ("text", "message")]
    = Ok vals /\
    map fst vals = ["level"; "text"].
Proof.
  assert (Hk : Forall (fun kv => is_Some
                 (record_dict "2024-01-31"
                    (makeRecord (Named "general_log") INFO "ready" sample_call_site)
                    (snd kv)))
                 [("level", "levelname"); ("text", "message")]).
  { repeat apply List.Forall_cons; try apply List.Forall_nil; eexists; reflexivity. }
  destruct (formatMessage_known _ _ Hk) as (vals & Hv & Hkeys & _).
  exists vals. split; [exact Hv|exact Hkeys].
Defined.

Lemma formatMessage_unknown_witness :
  formatMessage
    (record_dict "2024-01-31"
       (makeRecord (Named "general_log") INFO "ready" sample_call_site))
    ([("level", "levelname")] ++ ("logger", "names") :: [("text", "message")])
  = Raise (KeyError "names").
Proof.
  apply formatMessage_unknown.
  - apply List.Forall_cons; [eexists; reflexivity|apply List.Forall_nil].
  - reflexivity.
Defined.


(** A process in which the logger ['general_log'] exists already, at
    level ERROR and not propagating *)
Lemma configured_before_ids :
  ids_below
    (mkWorld (<["general_log" := mkLogger ERROR false []]> ∅)
       (mkLogger WARNING true []) ∅ [] [] 0).
Proof.
  intros [|n] lg; cbn.
  - intros [= <-]. exact (List.Forall_nil _).
  - destruct (decide (n = "general_log")) as [-> | Hne].
    + rewrite lookup_insert_eq. intros [= <-]. exact (List.Forall_nil _).
    + rewrite lookup_insert_ne by congruence. rewrite lookup_empty. discriminate.
Qed.

Lemma general_logger_reconfigures_witness :
  exists w' lg,
    general_logger (default_config "app")
      (mkWorld (<["general_log" := mkLogger ERROR false []]> ∅)
         (mkLogger WARNING true []) ∅ [] [] 0)
    = (w', Ok (Named "general_log")) /\
    lookup_logger w' (Named "general_log") = Some lg /\
    lg_level lg = DEBUG /\ lg_propagate lg = true.
Proof.
  assert (Hm : file_mode (default_config "app")) by (left; reflexivity).
  destruct (general_logger_reconfigures (default_config "app") _
              (mkLogger ERROR false []) configured_before_ids Hm eq_refl)
    as (w' & lg & Hrun & Hl & Hlv & Hp & _).
  exists w', lg. split; [exact Hrun|]. split; [exact Hl|]. split; assumption.
Defined.

Lemma general_logger_frame_witness :
  exists w',
    general_logger (default_config "app") fresh_world = (w', Ok (Named "general_log")) /\
    stderr w' = [] /\ outbox w' = [] /\
    files w' !! "app.log" = Some [] /\ files w' !! "other.log" = None.
Proof.
  exists (fst (general_logger (default_config "app") fresh_world)).
  assert (Hrun : general_logger (default_config "app") fresh_world
                 = (fst (general_logger (default_config "app") fresh_world),
                    Ok (Named "general_log"))) by reflexivity.
  split; [exact Hrun|].
  destruct (general_logger_frame (default_config "app") fresh_world _ _
              fresh_world_ids Hrun) as (_ & He & Ho & Hother & Hfile).
  split; [exact He|]. split; [exact Ho|]. split; [exact Hfile|].
  rewrite (Hother "other.log"); [reflexivity|discriminate].
Defined.

Lemma general_logger_root_name_witness :
  exists w',
    general_logger
      (mkConfig "root" [] [] "CRITICAL level triggered" None "localhost" "log" "app")
      fresh_world
    = (w', Ok RootLogger) /\
    lg_level (root w') = DEBUG /\ length (lg_handlers (root w')) = 3%nat /\
    loggerDict w' = ∅.
Proof.
  assert (Hm : file_mode (mkConfig "root" [] [] "CRITICAL level triggered" None
                            "localhost" "log" "app")) by (left; reflexivity).
  destruct (general_logger_root_name _ fresh_world fresh_world_ids Hm
              (or_intror eq_refl)) as (w' & Hrun & Hroot & Hd).
  exists w'. split; [exact Hrun|]. rewrite Hroot.
  split; [reflexivity|]. split; [reflexivity|exact Hd].
Defined.

Lemma general_logger_failure_leaves_logger_witness :
  exists w',
    general_logger
      (mkConfig "general_log" [] [] "CRITICAL level triggered" None "localhost"
         "none" "app") fresh_world
    = (w', Raise (UnboundLocalError "log_file_handler")) /\
    lookup_logger w' (Named "general_log") = Some (mkLogger DEBUG true []) /\
    next_id w' = 2%nat.
Proof.
  destruct (general_logger_failure_leaves_logger
              (mkConfig "general_log" [] [] "CRITICAL level triggered" None
                 "localhost" "none" "app") fresh_world)
    as (w' & Hrun & Hl & Hn); [discriminate|discriminate|].
  exists w'. split; [exact Hrun|]. split; [exact Hl|exact Hn].
Defined.




End LoggingExamples.
